(** * gen-mr: the interactive pull-request workflow ([src/workflow.mjs])

    A shallow embedding of the workflow engine of gen-mr/gen-pr together with
    the parts of [github-utils.mjs], [merge-request-generator.mjs] and
    [config/common.mjs] that it calls.

    - JavaScript strings are Stdlib [string]s (byte strings); only ASCII
      whitespace is treated as whitespace by [trim].
    - The process is a state-and-outcome monad [M] over a [world] that holds
      the answers the user will type, the replies of the external editor, of
      the AI backend and of the GitHub REST API, a heap of JavaScript objects
      (the mutable result objects of the workflow), and the trace of the
      observable effects ([console] output, prompts and answers, editor runs,
      generation calls, REST calls).
    - [process.exit(c)] is the outcome [Exit c]; a thrown error is [Throw];
      a prompt that receives no more input is [Blocked]. *)

From stdpp Require Import base gmap strings list pretty.
From Stdlib Require Import Strings.String Strings.Ascii.

Local Open Scope list_scope.

Notation "a +:+ b" := (String.append a b) (at level 60, right associativity).

(** ** JavaScript string helpers *)
Module JsString.

(** Whitespace as [String.prototype.trim] sees it (ASCII part). *)
Definition is_ws (c : ascii) : bool :=
  match nat_of_ascii c with
  | 9 | 10 | 11 | 12 | 13 | 32 => true
  | _ => false
  end.

Fixpoint trim_start (s : string) : string :=
  match s with
  | EmptyString => EmptyString
  | String c s' => if is_ws c then trim_start s' else s
  end.

Fixpoint rev_str (s : string) (acc : string) : string :=
  match s with
  | EmptyString => acc
  | String c s' => rev_str s' (String c acc)
  end.

Definition trim_end (s : string) : string :=
  rev_str (trim_start (rev_str s EmptyString)) EmptyString.

(** [s.trim()] *)
Definition trim (s : string) : string := trim_end (trim_start s).

(** [s.startsWith(p)] *)
Fixpoint starts_with (p s : string) : bool :=
  match p, s with
  | EmptyString, _ => true
  | String c p', String d s' => Ascii.eqb c d && starts_with p' s'
  | String _ _, EmptyString => false
  end.

(** [s.split(sep)] for a one-character separator: [""] gives [[""]]. *)
Fixpoint split_on (sep : ascii) (s : string) : list string :=
  match s with
  | EmptyString => [EmptyString]
  | String c s' =>
      if Ascii.eqb c sep then EmptyString :: split_on sep s'
      else match split_on sep s' with
           | [] => [String c EmptyString]
           | x :: xs => String c x :: xs
           end
  end.

(** [xs.join(sep)] *)
Fixpoint join (sep : string) (xs : list string) : string :=
  match xs with
  | [] => EmptyString
  | [x] => x
  | x :: xs' => x +:+ sep +:+ join sep xs'
  end.

Definition nl : ascii := ascii_of_nat 10.
Definition nl_s : string := String nl EmptyString.

(** [s.toLowerCase()] on ASCII letters. *)
Definition lower_char (c : ascii) : ascii :=
  let n := nat_of_ascii c in
  if (65 <=? n) && (n <=? 90) then ascii_of_nat (n + 32) else c.

Fixpoint to_lower (s : string) : string :=
  match s with
  | EmptyString => EmptyString
  | String c s' => String (lower_char c) (to_lower s')
  end.

(** Truthiness of a string: [""] is falsy. *)
Definition truthy (s : string) : bool := negb (String.eqb s EmptyString).

(** [a || b] on strings. *)
Definition or_str (a b : string) : string := if truthy a then a else b.

(** [a || b] where [a] may be [undefined]. *)
Definition or_opt (a : option string) (b : string) : string :=
  match a with Some s => or_str s b | None => b end.

(** Template interpolation of a possibly [undefined] value. *)
Definition interp (a : option string) : string :=
  match a with Some s => s | None => "undefined" end.

End JsString.

Import JsString.

(** ** Data model *)

(** A generated merge-request object, as returned by [generateMergeRequest]:
    [{ title, description, aiModel, model, prompt }] ([prompt] is [undefined]
    with the default prompt options and is left out). *)
Record mr_result := mkResult {
  r_title : string;
  r_description : string;
  r_aiModel : string;
  r_model : string
}.

(** An open pull request as returned by [GET /repos/:repo/pulls]. *)
Record pull := mkPull {
  pr_number : nat;
  pr_title : string;
  pr_body : option string;      (** [null] body is [None] *)
  pr_html_url : string;
  pr_state : string
}.

(** The fields of [config] the workflow reads. *)
Record config := mkConfig {
  cfg_githubToken : string;
  cfg_openaiToken : string;
  cfg_openaiModel : string      (** [""] when unset *)
}.

(** Reply of the GitHub REST API to a POST or PATCH. *)
Inductive http_result :=
| http_ok (html_url : string)
| http_err (text : string).

(** The options a generation call receives that the workflow controls. *)
Record gen_call := mkGenCall {
  gc_sourceBranch : string;
  gc_targetBranch : string;
  gc_jiraTickets : string;
  gc_aiModel : string;
  gc_additionalInstructions : option string;
  gc_previousResult : option (string * string)
}.

(** Observable effects, newest first in the trace. *)
Inductive event :=
| ev_log (line : string)                   (** [console.log] *)
| ev_error (line : string)                 (** [console.error] / [console.warn] *)
| ev_answer (prompt answer : string)       (** [rl.question(prompt)] answered *)
| ev_editor (content : string)             (** the external editor is run *)
| ev_generate (c : gen_call)               (** the AI backend is asked *)
| ev_get (url : string)                    (** GET to the GitHub API *)
| ev_post (url : string) (head base title body : string)  (** POST: create *)
| ev_patch (url : string) (title body : string)           (** PATCH: update *)
| ev_close.                                (** [rl.close()] *)

(** The process state.  The [w_editor_out], [w_ai_out] and [w_http_out]
    streams are the replies of the external collaborators, one per call;
    an exhausted stream fails the call. *)
Record world := mkWorld {
  w_inputs : list string;                  (** lines the user will type *)
  w_editorCommand : string;                (** [config.editorCommand], [""] if unset *)
  w_editor_out : list (option string);     (** saved buffer, or non-zero exit *)
  w_ai_out : list (option string);         (** raw AI reply, or a failure *)
  w_lookup : option (list pull);           (** GET /pulls reply, [None] on error *)
  w_http_out : list http_result;           (** replies to POST/PATCH *)
  w_heap : gmap nat mr_result;             (** the result objects *)
  w_next : nat;                            (** next free heap location *)
  w_trace : list event
}.

Definition set_inputs (w : world) (v : list string) : world :=
  mkWorld v (w_editorCommand w) (w_editor_out w) (w_ai_out w) (w_lookup w)
    (w_http_out w) (w_heap w) (w_next w) (w_trace w).
Definition set_editor_out (w : world) (v : list (option string)) : world :=
  mkWorld (w_inputs w) (w_editorCommand w) v (w_ai_out w) (w_lookup w)
    (w_http_out w) (w_heap w) (w_next w) (w_trace w).
Definition set_ai_out (w : world) (v : list (option string)) : world :=
  mkWorld (w_inputs w) (w_editorCommand w) (w_editor_out w) v (w_lookup w)
    (w_http_out w) (w_heap w) (w_next w) (w_trace w).
Definition set_http_out (w : world) (v : list http_result) : world :=
  mkWorld (w_inputs w) (w_editorCommand w) (w_editor_out w) (w_ai_out w)
    (w_lookup w) v (w_heap w) (w_next w) (w_trace w).
Definition set_heap (w : world) (h : gmap nat mr_result) (n : nat) : world :=
  mkWorld (w_inputs w) (w_editorCommand w) (w_editor_out w) (w_ai_out w)
    (w_lookup w) (w_http_out w) h n (w_trace w).
Definition set_trace (w : world) (t : list event) : world :=
  mkWorld (w_inputs w) (w_editorCommand w) (w_editor_out w) (w_ai_out w)
    (w_lookup w) (w_http_out w) (w_heap w) (w_next w) t.

(** ** The process monad *)

Inductive outcome (A : Type) :=
| Ret (a : A)
| Throw (msg : string)
| Exit (code : nat)
| Blocked.
Arguments Ret {A} a.
Arguments Throw {A} msg.
Arguments Exit {A} code.
Arguments Blocked {A}.

Definition M (A : Type) : Type := world -> outcome A * world.

Definition ret {A} (a : A) : M A := fun w => (Ret a, w).

Definition bind {A B} (m : M A) (k : A -> M B) : M B := fun w =>
  match m w with
  | (Ret a, w') => k a w'
  | (Throw e, w') => (Throw e, w')
  | (Exit c, w') => (Exit c, w')
  | (Blocked, w') => (Blocked, w')
  end.

Notation "x <- m ;; k" := (bind m (fun x => k))
  (at level 63, m at next level, right associativity).
Notation "m ;;; k" := (bind m (fun _ => k))
  (at level 63, right associativity).

Definition throw {A} (e : string) : M A := fun w => (Throw e, w).

(** [process.exit(code)] *)
Definition exit {A} (code : nat) : M A := fun w => (Exit code, w).

(** [try { m } catch (e) { h(e) }] *)
Definition try_catch {A} (m : M A) (h : string -> M A) : M A := fun w =>
  match m w with
  | (Throw e, w') => h e w'
  | r => r
  end.

Definition emit (e : event) : M unit :=
  fun w => (Ret tt, set_trace w (e :: w_trace w)).

Definition log (s : string) : M unit := emit (ev_log s).
Definition log_error (s : string) : M unit := emit (ev_error s).

(** [rl.question(prompt, cb)]: the callback receives the next typed line;
    with no more input the promise never settles. *)
Definition question (prompt : string) : M string := fun w =>
  match w_inputs w with
  | [] => (Blocked, w)
  | a :: rest =>
      (Ret a, set_trace (set_inputs w rest) (ev_answer prompt a :: w_trace w))
  end.

Definition rl_close : M unit := emit ev_close.

(** [{ ...obj }]: a fresh object with the same fields. *)
Definition alloc (r : mr_result) : M nat := fun w =>
  let l := w_next w in
  (Ret l, set_heap w (<[l := r]> (w_heap w)) (S l)).

Definition load (l : nat) : M mr_result := fun w =>
  match w_heap w !! l with
  | Some r => (Ret r, w)
  | None => (Throw "Cannot read properties of undefined", w)
  end.

Definition store (l : nat) (r : mr_result) : M unit := fun w =>
  (Ret tt, set_heap w (<[l := r]> (w_heap w)) (w_next w)).

(** [obj.title = t] *)
Definition set_title (l : nat) (t : string) : M unit :=
  r <- load l ;; store l (mkResult t (r_description r) (r_aiModel r) (r_model r)).

(** [obj.description = d] *)
Definition set_description (l : nat) (d : string) : M unit :=
  r <- load l ;; store l (mkResult (r_title r) d (r_aiModel r) (r_model r)).

(** [s.repeat(n)] *)
Fixpoint repeat_str (n : nat) (s : string) : string :=
  match n with 0 => EmptyString | S k => s +:+ repeat_str k s end.

(** ** [config/common.mjs]: the editor bridge *)

(** [getEditorCommand()]: [config.editorCommand || null]. *)
Definition getEditorCommand : M string := fun w => (Ret (w_editorCommand w), w).

(** [executeEditor(cmd, content)]: the buffer is written to a temporary
    file, the editor runs, and the file is read back; a non-zero exit
    throws. *)
Definition executeEditor (content : string) : M string := fun w =>
  let w1 := set_trace w (ev_editor content :: w_trace w) in
  match w_editor_out w with
  | Some text :: rest => (Ret text, set_editor_out w1 rest)
  | None :: rest => (Throw "Command failed", set_editor_out w1 rest)
  | [] => (Throw "Command failed", w1)
  end.

Definition no_editor_msg : string :=
  "No editor configured. Run 'gen-pr --configure-editor' or 'gen-mr --configure-editor' to set up an editor.".

(** [openInEditor(content, ...)] *)
Definition openInEditor (content : string) : M string :=
  cmd <- getEditorCommand ;;
  if negb (truthy cmd) then throw no_editor_msg else executeEditor content.

(** [lines.findIndex((line) => line.trim() === "---")] *)
Fixpoint find_separator (i : nat) (lines : list string) : option nat :=
  match lines with
  | [] => None
  | x :: xs => if String.eqb (trim x) "---" then Some i else find_separator (S i) xs
  end.

(** [editPullRequestContent(title, description, ...)] *)
Definition editPullRequestContent (title description : string) : M (string * string) :=
  let content := title +:+ nl_s +:+ nl_s +:+ "---" +:+ nl_s +:+ nl_s +:+ description in
  editedContent <- openInEditor content ;;
  let lines := split_on nl editedContent in
  match find_separator 0 lines with
  | Some i =>
      ret (trim (join nl_s (take i lines)), trim (join nl_s (drop (S i) lines)))
  | None =>
      ret (or_str (hd EmptyString lines) title,
           or_str (trim (join nl_s (tl lines))) description)
  end.

(** ** [utils/branch-format.mjs] *)

Definition truthy_opt (a : option string) : bool :=
  match a with Some s => truthy s | None => false end.

Definition formatSourceBranchDisplay (local : string) (remoteName remoteBranch : option string)
  : string :=
  if truthy_opt remoteName && truthy_opt remoteBranch
     && negb (bool_decide (remoteBranch = Some local))
  then local +:+ " (" +:+ interp remoteName +:+ "/" +:+ interp remoteBranch +:+ ")"
  else if negb (bool_decide (remoteName = Some "origin"))
  then local +:+ " (" +:+ interp remoteName +:+ "/" +:+ local +:+ ")"
  else local.

(** ** [merge-request-generator.mjs] *)

(** The title is the first line of the AI reply, the description the rest. *)
Definition parse_ai_reply (aiResponse : string) : string * string :=
  let lines := split_on nl aiResponse in
  (trim (hd EmptyString lines), trim (join nl_s (tl lines))).

(** The AI backend: git validation, prompt construction and the chat call.
    A failure of any of them throws. *)
Definition call_ai (c : gen_call) : M string := fun w =>
  let w1 := set_trace w (ev_generate c :: w_trace w) in
  match w_ai_out w with
  | Some reply :: rest => (Ret reply, set_ai_out w1 rest)
  | None :: rest => (Throw "AI request failed", set_ai_out w1 rest)
  | [] => (Throw "AI request failed", w1)
  end.

(** [generateMergeRequest(config, ...)]: returns the heap location of the
    fresh result object.  The model and token checks only read [config];
    they are made before the backend is asked. *)
Definition generateMergeRequest (cfg : config) (c : gen_call) : M nat :=
  let aiModel := gc_aiModel c in
  let model := or_str (cfg_openaiModel cfg) "gpt-3.5-turbo" in
  let normalizedModel := to_lower aiModel in
  if String.eqb normalizedModel "chatgpt" || String.eqb normalizedModel "openai"
     || String.eqb normalizedModel "gpt"
  then
    if negb (truthy (cfg_openaiToken cfg))
    then throw "OpenAI token is required for ChatGPT model"
    else
      aiResponse <- call_ai c ;;
      let '(title, description) := parse_ai_reply aiResponse in
      alloc (mkResult title description aiModel model)
  else throw ("Unsupported AI model '" +:+ aiModel +:+ "'. Currently only ChatGPT is supported.").

(** [generateMergeRequestSafe(...)] with [verbose: true]. *)
Definition generateMergeRequestSafe (cfg : config) (c : gen_call)
    (remoteName remoteSourceBranch remoteTargetBranch : option string) : M nat :=
  try_catch
    (let displaySource :=
       formatSourceBranchDisplay (gc_sourceBranch c) remoteName remoteSourceBranch in
     let displayTarget :=
       formatSourceBranchDisplay (gc_targetBranch c) remoteName
         (Some (or_opt remoteTargetBranch (gc_targetBranch c))) in
     log ("🔍 Generating merge request for " +:+ displaySource +:+ " → " +:+ displayTarget) ;;;
     (if truthy (gc_jiraTickets c)
      then log ("🎫 Including JIRA tickets: " +:+ gc_jiraTickets c) else ret tt) ;;;
     l <- generateMergeRequest cfg c ;;
     r <- load l ;;
     log ("✅ Generated merge request using " +:+ r_aiModel r +:+ " (" +:+ r_model r +:+ ")") ;;;
     ret l)
    (fun e => log_error ("❌ Failed to generate merge request: " +:+ e) ;;; throw e).

(** ** [github-utils.mjs] *)

Definition api : string := "https://api.github.com/repos/".

(** [findExistingPullRequest(repo, source, target, token)] *)
Definition findExistingPullRequest (githubRepo sourceBranch targetBranch : string)
  : M (option pull) :=
  emit (ev_get (api +:+ githubRepo +:+ "/pulls?state=open&head=" +:+ sourceBranch
                +:+ "&base=" +:+ targetBranch)) ;;;
  fun w =>
    match w_lookup w with
    | Some (p :: _) => (Ret (Some p), w)
    | Some [] => (Ret None, w)
    | None =>
        (Ret None, set_trace w
           (ev_error "Warning: Could not check for existing pull requests: request failed"
              :: w_trace w))
    end.

(** A POST or PATCH: the request is sent, then its reply is read. *)
Definition http_send (e : event) : M string :=
  emit e ;;;
  fun w =>
    match w_http_out w with
    | http_ok url :: rest => (Ret url, set_http_out w rest)
    | http_err text :: rest => (Throw text, set_http_out w rest)
    | [] => (Throw "fetch failed", w)
    end.

Record pr_args := mkPrArgs {
  a_githubRepo : string;
  a_sourceBranch : string;
  a_targetBranch : string;
  a_title : string;
  a_description : string;
  a_githubToken : string;
  a_existingPR : option pull
}.

(** [createOrUpdatePullRequest({...})]: returns [res.html_url]. *)
Definition createOrUpdatePullRequest (a : pr_args) : M string :=
  try_catch
    (match a_existingPR a with
     | Some existingPR =>
         url <- http_send (ev_patch (api +:+ a_githubRepo a +:+ "/pulls/"
                                     +:+ pretty (pr_number existingPR))
                                    (a_title a) (a_description a)) ;;
         log ("✅ Pull request updated: " +:+ url) ;;;
         ret url
     | None =>
         url <- http_send (ev_post (api +:+ a_githubRepo a +:+ "/pulls")
                                   (a_sourceBranch a) (a_targetBranch a)
                                   (a_title a) (a_description a)) ;;
         log ("✅ Pull request created: " +:+ url) ;;;
         ret url
     end)
    (fun err =>
       let actionText := match a_existingPR a with Some _ => "update" | None => "create" end in
       log_error ("❌ Failed to " +:+ actionText +:+ " pull request: " +:+ err) ;;;
       throw err).

(** ** [workflow.mjs] *)

(** The editor template of [regenerateMergeRequest]. *)
Definition templateContent : string :=
  join nl_s
    [ "# Additional Instructions for Merge Request Generation";
      "# ";
      "# Lines starting with '#' are comments and will be ignored.";
      "# Add any additional instructions below to customize the merge request.";
      "# If you don't need any additional instructions, save and close this file.";
      "#";
      "# Examples:";
      "# - Focus on security aspects";
      "# - Emphasize performance improvements";
      "# - Mention specific testing requirements";
      "# - Add context about architectural decisions";
      "#";
      "# Your instructions:";
      "";
      "" ].

(** [userInput.split("\n").filter((line) => !line.trim().startsWith("#")).join("\n").trim()] *)
Definition instructions_of (userInput : string) : string :=
  trim (join nl_s
          (List.filter (fun line => negb (starts_with "#" (trim line)))
             (split_on nl userInput))).

(** Settings of [prConfig] read by [saveMergeRequest]. *)
Record pr_config := mkPrConfig {
  pc_githubRepo : string;
  pc_githubToken : string;
  pc_existingPR : option pull;
  pc_remoteSourceBranch : option string;
  pc_remoteTargetBranch : option string
}.

(** The closure variables of [handleUserInteraction]: [initialResult],
    [currentResult] and [originalResult] are heap locations. *)
Record session := mkSession {
  s_initial : nat;
  s_current : nat;
  s_original : nat;
  s_hasChanges : bool
}.

Definition with_changes (s : session) (b : bool) : session :=
  mkSession (s_initial s) (s_current s) (s_original s) b.

Definition cancel_msg : string := "❌ Operation cancelled. Exiting without saving.".

Definition invalid_msg (maxOption : string) : string :=
  "❌ Invalid option. Please choose 1-" +:+ maxOption +:+ ".".

Definition max_option (hasChanges : bool) : string := if hasChanges then "5" else "4".

Definition menu_prompt (hasChanges : bool) : string :=
  "Choose an option (1-" +:+ max_option hasChanges +:+ "): ".

Section Workflow.

Variable config0 : config.
Variables sourceBranch targetBranch jiraTickets : string.

(** [regenerateMergeRequest(config, ..., previousResult, { aiModel, promptOptions })];
    the prompt options are passed through unchanged and are not modelled. *)
Definition regenerateMergeRequest (previousResult : string * string) (aiModel : string)
  : M nat :=
  log "🚀 Opening editor for additional instructions..." ;;;
  try_catch
    (userInput <- openInEditor templateContent ;;
     let instructions := instructions_of userInput in
     log "🔄 Regenerating with additional instructions..." ;;;
     generateMergeRequest config0
       (mkGenCall sourceBranch targetBranch jiraTickets aiModel
          (Some instructions) (Some previousResult)))
    (fun e => log_error ("❌ Error during regeneration: " +:+ e) ;;; throw e).

Variable prConfig : pr_config.

Definition showMenu (s : session) : M string :=
  log (nl_s +:+ repeat_str 50 "=") ;;;
  log "📋 What would you like to do?" ;;;
  log (repeat_str 50 "=") ;;;
  log "1. 💾 Save/Update this merge request" ;;;
  log "2. ✏️  Edit title and description" ;;;
  log "3. 🔄 Regenerate with additional instructions" ;;;
  (if s_hasChanges s
   then log "4. ↩️  Rollback to original version" ;;;
        log "5. ❌ Cancel (exit without saving)"
   else log "4. ❌ Cancel (exit without saving)") ;;;
  log (repeat_str 50 "=") ;;;
  choice <- question (menu_prompt (s_hasChanges s)) ;;
  ret (trim choice).

Definition showCurrentResult (s : session) : M unit :=
  r <- load (s_current s) ;;
  log (nl_s +:+ "🏷️  Title: " +:+ r_title r) ;;;
  log (nl_s +:+ "📄 Description:" +:+ nl_s +:+ r_description r) ;;;
  log (repeat_str 60 "=").

Definition editManually (s : session) : M session :=
  title <- question "New Title: " ;;
  description <- question "New Description: " ;;
  r <- load (s_current s) ;;
  set_title (s_current s) (or_str title (r_title r)) ;;;
  r' <- load (s_current s) ;;
  set_description (s_current s) (or_str description (r_description r')) ;;;
  let s' := with_changes s true in
  log "✅ Content updated manually" ;;;
  showCurrentResult s' ;;;
  ret s'.

Definition editWithEditor (s : session) : M session :=
  editorCommand <- getEditorCommand ;;
  if truthy editorCommand then
    try_catch
      (log "🚀 Opening editor..." ;;;
       r <- load (s_current s) ;;
       editedContent <- editPullRequestContent (r_title r) (r_description r) ;;
       set_title (s_current s) (fst editedContent) ;;;
       set_description (s_current s) (snd editedContent) ;;;
       let s' := with_changes s true in
       log "✅ Content updated from editor" ;;;
       showCurrentResult s' ;;;
       ret s')
      (fun e =>
         log_error ("❌ Editor error: " +:+ e) ;;;
         log "💡 Falling back to manual input" ;;;
         editManually s)
  else editManually s.

Definition regenerateWithInstructions (s : session) : M session :=
  try_catch
    (r <- load (s_current s) ;;
     ini <- load (s_initial s) ;;
     l <- regenerateMergeRequest (r_title r, r_description r) (r_aiModel ini) ;;
     regeneratedResult <- load l ;;
     set_title (s_current s) (r_title regeneratedResult) ;;;
     set_description (s_current s) (r_description regeneratedResult) ;;;
     let s' := with_changes s true in
     log (nl_s +:+ repeat_str 60 "=") ;;;
     log "🔄 Regenerated Pull Request" ;;;
     log (repeat_str 60 "=") ;;;
     showCurrentResult s' ;;;
     ret s')
    (fun e =>
       log_error ("❌ Failed to regenerate: " +:+ e) ;;;
       log "💡 Continuing with current content..." ;;;
       ret s).

(** [currentResult = { ...originalResult }; hasChanges = false;] *)
Definition rollbackToOriginal (s : session) : M session :=
  o <- load (s_original s) ;;
  l <- alloc o ;;
  let s' := mkSession (s_initial s) l (s_original s) false in
  log "↩️ Rolled back to original version" ;;;
  showCurrentResult s' ;;;
  ret s'.

Definition saveMergeRequest (s : session) : M unit :=
  try_catch
    (r <- load (s_current s) ;;
     _ <- createOrUpdatePullRequest
            (mkPrArgs (pc_githubRepo prConfig)
               (or_opt (pc_remoteSourceBranch prConfig) sourceBranch)
               (or_opt (pc_remoteTargetBranch prConfig) targetBranch)
               (r_title r) (r_description r)
               (pc_githubToken prConfig) (pc_existingPR prConfig)) ;;
     ret tt)
    (fun _ => ret tt) ;;;
  rl_close.

(** One turn of the main interaction loop: [None] when the function
    returns (after a save), [Some s'] when the loop goes round again. *)
Definition loop_step (s : session) : M (option session) :=
  choice <- showMenu s ;;
  if String.eqb choice "1" then
    saveMergeRequest s ;;; ret None
  else if String.eqb choice "2" then
    s' <- editWithEditor s ;; ret (Some s')
  else if String.eqb choice "3" then
    s' <- regenerateWithInstructions s ;; ret (Some s')
  else if String.eqb choice "4" then
    (if s_hasChanges s then
       s' <- rollbackToOriginal s ;; ret (Some s')
     else
       log cancel_msg ;;; rl_close ;;; exit 0)
  else if String.eqb choice "5" then
    (if s_hasChanges s then
       log cancel_msg ;;; rl_close ;;; exit 0
     else
       log (invalid_msg "4") ;;; ret (Some s))
  else
    log (invalid_msg (max_option (s_hasChanges s))) ;;; ret (Some s).

(** The [while (true)] loop, unrolled [fuel] times; a run that needs more
    turns than [fuel] is cut off as [Blocked]. *)
Fixpoint interaction_loop (fuel : nat) (s : session) : M unit :=
  match fuel with
  | 0 => fun w => (Blocked, w)
  | S fuel' =>
      o <- loop_step s ;;
      match o with
      | None => ret tt
      | Some s' => interaction_loop fuel' s'
      end
  end.

(** [let currentResult = { ...initialResult }; const originalResult = { ...initialResult };] *)
Definition start_session (initialResult : nat) : M session :=
  ini <- load initialResult ;;
  cur <- alloc ini ;;
  ini' <- load initialResult ;;
  orig <- alloc ini' ;;
  ret (mkSession initialResult cur orig false).

Definition handleUserInteraction (fuel : nat) (initialResult : nat) : M unit :=
  s <- start_session initialResult ;;
  interaction_loop fuel s.

End Workflow.

(** [result.title] when [result] may still be [undefined]. *)
Definition load_result (result : option nat) : M mr_result :=
  match result with
  | Some l => load l
  | None => throw "Cannot read properties of undefined (reading 'title')"
  end.

Definition gate_prompt : string := "Choose an option (1-3): ".

(** [executePRWorkflow(sourceBranch, targetBranch, jiraTickets, config,
    githubRepo, remoteSourceBranch, remoteTargetBranch, remoteName)];
    [fuel] bounds the turns of the interaction loop. *)
Definition executePRWorkflow (fuel : nat)
    (sourceBranch targetBranch jiraTickets : string) (cfg : config) (githubRepo : string)
    (remoteSourceBranch remoteTargetBranch remoteName : option string) : M unit :=
  let githubToken := cfg_githubToken cfg in
  let fresh := mkGenCall sourceBranch targetBranch jiraTickets "ChatGPT" None None in
  try_catch
    (log "🔍 Checking for existing pull requests..." ;;;
     existingPR <- findExistingPullRequest githubRepo
                     (or_opt remoteSourceBranch sourceBranch)
                     (or_opt remoteTargetBranch targetBranch) ;;
     result <-
       match existingPR with
       | Some pr =>
           let displaySource :=
             formatSourceBranchDisplay (or_opt remoteSourceBranch sourceBranch)
               remoteName remoteSourceBranch in
           let displayTarget :=
             formatSourceBranchDisplay targetBranch remoteName
               (Some (or_opt remoteTargetBranch targetBranch)) in
           log "📋 Found existing pull request:" ;;;
           log ("🔍 Source → target: " +:+ displaySource +:+ " → " +:+ displayTarget) ;;;
           log ("   URL: " +:+ pr_html_url pr) ;;;
           log ("   Status: " +:+ pr_state pr) ;;;
           log ("   Title: " +:+ pr_title pr) ;;;
           log ("   Description:" +:+ nl_s +:+ or_opt (pr_body pr) "") ;;;
           log "" ;;;
           log "What would you like to do?" ;;;
           log "1. 🔄 Regenerate PR (fresh generation)" ;;;
           log "2. 🔄 Regenerate existing PR with additional instructions" ;;;
           log "3. ❌ Cancel" ;;;
           choice <- question gate_prompt ;;
           let c := trim choice in
           if String.eqb c "1" then
             log "🔄 Will regenerate with fresh content..." ;;;
             l <- generateMergeRequestSafe cfg fresh remoteName remoteSourceBranch
                    remoteTargetBranch ;;
             ret (Some l)
           else if String.eqb c "2" then
             log "🔄 Will regenerate existing PR with additional instructions..." ;;;
             try_catch
               (l <- regenerateMergeRequest cfg sourceBranch targetBranch jiraTickets
                       (pr_title pr, or_opt (pr_body pr) "") "ChatGPT" ;;
                ret (Some l))
               (fun e =>
                  log_error ("❌ Failed to regenerate with instructions: " +:+ e) ;;;
                  log "💡 Falling back to fresh generation..." ;;;
                  ret None)
           else
             log "❌ Operation cancelled. Existing PR will remain unchanged." ;;;
             rl_close ;;;
             exit 0
       | None =>
           log "🔍 Generating AI-powered pull request..." ;;;
           l <- generateMergeRequestSafe cfg fresh remoteName remoteSourceBranch
                  remoteTargetBranch ;;
           ret (Some l)
       end ;;
     log (nl_s +:+ repeat_str 60 "=") ;;;
     let actionText :=
       match existingPR with Some _ => "Updated Pull Request" | None => "Generated Pull Request" end in
     log ("📝 " +:+ actionText) ;;;
     log (repeat_str 60 "=") ;;;
     r <- load_result result ;;
     log (nl_s +:+ "🏷️  Title: " +:+ r_title r) ;;;
     log (nl_s +:+ "📄 Description:" +:+ nl_s +:+ r_description r) ;;;
     log (nl_s +:+ "🤖 Generated using: " +:+ r_aiModel r +:+ " (" +:+ r_model r +:+ ")") ;;;
     log (repeat_str 60 "=") ;;;
     match result with
     | Some l =>
         handleUserInteraction cfg sourceBranch targetBranch jiraTickets
           (mkPrConfig githubRepo githubToken existingPR remoteSourceBranch
              remoteTargetBranch)
           fuel l
     | None => ret tt
     end)
    (fun e =>
       log_error ("❌ Workflow error: " +:+ e) ;;;
       rl_close ;;;
       exit 1).

(** * Descriptions the properties are stated with *)

(** What the gate logs when it cancels. *)
Definition gate_cancel_msg : string := "❌ Operation cancelled. Existing PR will remain unchanged.".

(** The menu entries a turn of the loop acts on. *)
Definition recognized (hasChanges : bool) (choice : string) : bool :=
  String.eqb choice "1" || String.eqb choice "2" || String.eqb choice "3"
  || String.eqb choice "4" || (hasChanges && String.eqb choice "5").

(** The one request the save sends: a PATCH of pull request [number] when
    an open pull request was found, a POST for the branch pair otherwise;
    both carry the live draft's title and description. *)
Definition save_request (sb tb : string) (pc : pr_config) (r : mr_result) : event :=
  match pc_existingPR pc with
  | Some pr =>
      ev_patch ("https://api.github.com/repos/" +:+ pc_githubRepo pc +:+ "/pulls/"
                +:+ pretty (pr_number pr)) (r_title r) (r_description r)
  | None =>
      ev_post ("https://api.github.com/repos/" +:+ pc_githubRepo pc +:+ "/pulls")
        (or_opt (pc_remoteSourceBranch pc) sb) (or_opt (pc_remoteTargetBranch pc) tb)
        (r_title r) (r_description r)
  end.

(** What the save prints for the API's reply: the URL on success, the
    failed action and the error text otherwise. *)
Definition save_report (pc : pr_config) (h : http_result) : event :=
  match h, pc_existingPR pc with
  | http_ok url, Some _ => ev_log ("✅ Pull request updated: " +:+ url)
  | http_ok url, None => ev_log ("✅ Pull request created: " +:+ url)
  | http_err text, Some _ => ev_error ("❌ Failed to update pull request: " +:+ text)
  | http_err text, None => ev_error ("❌ Failed to create pull request: " +:+ text)
  end.

(** The model names [generateMergeRequest] accepts. *)
Definition supported_model (aiModel : string) : bool :=
  let n := to_lower aiModel in
  String.eqb n "chatgpt" || String.eqb n "openai" || String.eqb n "gpt".

(** Everything menu option 3 needs from its environment: both drafts are
    present, an editor is configured and exits normally, the initial
    draft's model is supported, a token is configured and the AI replies. *)
Definition regeneration_succeeds (cfg : config) (s : session) (w : world) : bool :=
  match w_heap w !! s_current s, w_heap w !! s_initial s with
  | Some _, Some ini =>
      truthy (w_editorCommand w)
      && match w_editor_out w with Some _ :: _ => true | _ => false end
      && supported_model (r_aiModel ini) && truthy (cfg_openaiToken cfg)
      && match w_ai_out w with Some _ :: _ => true | _ => false end
  | _, _ => false
  end.

(** The menu entries for rollback and cancel. *)
Definition rollback_line : string := "4. ↩️  Rollback to original version".

Definition cancel_line (hasChanges : bool) : string :=
  (if hasChanges then "5" else "4") +:+ ". ❌ Cancel (exit without saving)".

(** The first character of a line that is not whitespace. *)
Fixpoint first_non_ws (s : string) : option ascii :=
  match s with
  | EmptyString => None
  | String c s' => if is_ws c then first_non_ws s' else Some c
  end.

(** A comment line: its first non-whitespace character is ['#']. *)
Definition is_comment_line (line : string) : bool :=
  match first_non_ws line with Some c => Ascii.eqb c "#"%char | None => false end.

(** The buffer with its comment lines removed and the blank padding
    around the rest trimmed. *)
Definition spec_instructions (buf : string) : string :=
  trim (join nl_s (List.filter (fun line => negb (is_comment_line line)) (split_on nl buf))).

(** The sessions the interaction loop goes through, turn after turn, from
    a first session [s0] in world [w0]. *)
Inductive loop_reach cfg sb tb jira pc (s0 : session) (w0 : world) : session -> world -> Prop :=
| loop_reach_start : loop_reach cfg sb tb jira pc s0 w0 s0 w0
| loop_reach_turn s w s' w' :
    loop_reach cfg sb tb jira pc s0 w0 s w ->
    loop_step cfg sb tb jira pc s w = (Ret (Some s'), w') ->
    loop_reach cfg sb tb jira pc s0 w0 s' w'.

(** The invariant of the loop: the snapshot cell holds [snap], it is not
    the live draft's cell, and it is allocated. *)
Definition snapshot_held (snap : mr_result) (s : session) (w : world) : Prop :=
  w_heap w !! s_original s = Some snap /\ s_current s <> s_original s /\ s_original s < w_next w.

(** Whether a string contains the character [c]. *)
Fixpoint has_char (c : ascii) (s : string) : bool :=
  match s with
  | EmptyString => false
  | String d s' => Ascii.eqb d c || has_char c s'
  end.

(** The buffer [editPullRequestContent] hands to the editor. *)
Definition editor_buffer (title description : string) : string :=
  title +:+ nl_s +:+ nl_s +:+ "---" +:+ nl_s +:+ nl_s +:+ description.

(** Update requests (PATCH) sent to the GitHub API. *)
Definition patch_of (e : event) : nat :=
  match e with ev_patch _ _ _ => 1 | _ => 0 end.

(** Every heap location handed out so far holds an object. *)
Definition heap_ok (w : world) : Prop :=
  forall l, l < w_next w -> is_Some (w_heap w !! l).

(** ** The editor command line ([executeEditor] in [config/common.mjs])

    [executeEditor] writes the content to a temporary file and runs the
    configured command through [execSync]. The definitions below give the
    command line it builds. The [{line}] and [{file}] placeholders are
    replaced with [String.prototype.replace] and a global regular
    expression. The replacement text is inserted as it is, which is what
    JavaScript does for a text without [$]. *)

(** [/p/.test(s)] for a literal pattern [p]. *)
Fixpoint contains (p s : string) : bool :=
  starts_with p s || match s with EmptyString => false | String _ s' => contains p s' end.

Fixpoint drop_str (n : nat) (s : string) : string :=
  match n, s with
  | 0, _ => s
  | S n', String _ s' => drop_str n' s'
  | S _, EmptyString => EmptyString
  end.

Fixpoint replace_go (fuel : nat) (p r s : string) : string :=
  match fuel with
  | 0 => s
  | S f =>
      match s with
      | EmptyString => EmptyString
      | String c s' =>
          if starts_with p s then r +:+ replace_go f p r (drop_str (String.length p) s)
          else String c (replace_go f p r s')
      end
  end.

(** [s.replace(/p/g, r)] for a non-empty literal pattern [p]: the matches,
    scanned from the left, are replaced by [r]. Every step consumes at least
    one character, so [length s] steps suffice. *)
Definition replace_all (p r s : string) : string := replace_go (String.length s) p r s.

Definition starts_ws (s : string) : bool :=
  match s with String c _ => is_ws c | EmptyString => false end.

(** [s.split(/\s+/)]: a maximal run of whitespace separates two parts; a
    leading or trailing run gives an empty part, and [""] gives [[""]]. *)
Fixpoint split_ws (s : string) : list string :=
  match s with
  | EmptyString => [EmptyString]
  | String c s' =>
      if is_ws c then (if starts_ws s' then split_ws s' else EmptyString :: split_ws s')
      else match split_ws s' with
           | [] => [String c EmptyString]
           | x :: xs => String c x :: xs
           end
  end.



(** The command line [executeEditor(editorCommand, content, line, _)] runs
    on the file [tempFilePath]. [line] is the text of [`${line}`]. *)
Definition executeEditor_command (editorCommand line tempFilePath : string) : string :=
  let hasFileTemplate := contains "{file}" editorCommand in
  let command := replace_all "{file}" tempFilePath (replace_all "{line}" line editorCommand) in
  let commandParts := split_ws command in
  let commandParts := if hasFileTemplate then commandParts else commandParts ++ [tempFilePath] in
  join " " commandParts.






(** A string without whitespace. *)
Fixpoint no_ws (s : string) : bool :=
  match s with
  | EmptyString => true
  | String c s' => negb (is_ws c) && no_ws s'
  end.

(** Its only whitespace is single spaces: [s.split(/\s+/).join(" ")] gives
    it back. *)
Fixpoint single_spaced (s : string) : bool :=
  match s with
  | EmptyString => true
  | String c s' =>
      (if is_ws c then Ascii.eqb c " "%char && negb (starts_ws s') else true) && single_spaced s'
  end.

(** ** Concrete runs *)

Definition cfg_demo : config := mkConfig "ghp_token" "sk-token" "".

Definition pr42 : pull :=
  mkPull 42 "Old" (Some "Old body") "https://github.com/acme/app/pull/42" "open".

(** A world with an open pull request #42, the editor command
    [editorCommand] ([""] for none) whose one run yields a commented buffer,
    a working AI backend and a working GitHub API; the user types [inputs]. *)
Definition world_pr42 (editorCommand : string) (inputs : list string) : world :=
  mkWorld inputs editorCommand [Some ("# comment" +:+ nl_s +:+ "Focus on perf" +:+ nl_s)]
    [Some ("New" +:+ nl_s +:+ "New body"); Some ("Fresh" +:+ nl_s +:+ "Fresh body")]
    (Some [pr42]) [http_ok "https://github.com/acme/app/pull/42"] ∅ 0 [].

Definition run_demo (w : world) : outcome unit * world :=
  executePRWorkflow 5 "feature" "main" "" cfg_demo "acme/app" None None (Some "origin") w.

(** * Reasoning about runs *)

(** Total weight of a stretch of trace under an event weight [f]. *)
Fixpoint count (f : event -> nat) (d : list event) : nat :=
  match d with
  | [] => 0
  | e :: d' => f e + count f d'
  end.

(** Calls that mutate the remote repository. *)
Definition mut_of (e : event) : nat :=
  match e with ev_post _ _ _ _ _ | ev_patch _ _ _ => 1 | _ => 0 end.

(** Answered prompts. *)
Definition ans_of (e : event) : nat :=
  match e with ev_answer _ _ => 1 | _ => 0 end.

(** Calls to the AI backend. *)
Definition gen_of (e : event) : nat :=
  match e with ev_generate _ => 1 | _ => 0 end.

Lemma count_app f d1 d2 : count f (d1 ++ d2) = count f d1 + count f d2.
Proof. induction d1 as [|e d1 IH]; simpl; [done | rewrite IH; lia]. Qed.

(** [footprint c f n m]: whatever [m] does, it appends to the trace events of
    total [f]-weight at most [n], never shrinks the heap, and leaves every
    already allocated heap cell other than [c] as it was. *)
Definition footprint {A} (c : nat) (f : event -> nat) (n : nat) (m : M A) : Prop :=
  forall w, exists d,
    w_trace (snd (m w)) = d ++ w_trace w /\ count f d <= n /\
    w_next w <= w_next (snd (m w)) /\
    (forall l, l <> c -> l < w_next w -> w_heap (snd (m w)) !! l = w_heap w !! l).

Section Footprint.
Context (c : nat) (f : event -> nat).

Lemma fp_mono {A} n1 n2 (m : M A) : n1 <= n2 -> footprint c f n1 m -> footprint c f n2 m.
Proof.
  intros Hle Hm w. destruct (Hm w) as (d & Ht & Hc & Hn & Hh). exists d. repeat split; auto; lia.
Qed.

Lemma fp_bind {A B} n1 n2 (m : M A) (k : A -> M B) :
  footprint c f n1 m -> (forall a, footprint c f n2 (k a)) ->
  footprint c f (n1 + n2) (bind m k).
Proof.
  intros Hm Hk w. unfold bind.
  destruct (Hm w) as (d1 & Ht1 & Hc1 & Hn1 & Hh1).
  destruct (m w) as [o w1]. simpl in *.
  destruct o as [a|e|code|];
    try (exists d1; repeat split; auto; lia).
  destruct (Hk a w1) as (d2 & Ht2 & Hc2 & Hn2 & Hh2).
  exists (d2 ++ d1). rewrite count_app, <- app_assoc, <- Ht1. repeat split; auto; try lia.
  intros l Hl Hlt. rewrite Hh2 by (auto; lia). auto.
Qed.

Lemma fp_bind0 {A B} n (m : M A) (k : A -> M B) :
  footprint c f 0 m -> (forall a, footprint c f n (k a)) -> footprint c f n (bind m k).
Proof. intros. apply (fp_bind 0 n); auto. Qed.

Lemma fp_try {A} n1 n2 (m : M A) (h : string -> M A) :
  footprint c f n1 m -> (forall e, footprint c f n2 (h e)) ->
  footprint c f (n1 + n2) (try_catch m h).
Proof.
  intros Hm Hh w. unfold try_catch.
  destruct (Hm w) as (d1 & Ht1 & Hc1 & Hn1 & Hh1).
  destruct (m w) as [o w1]. simpl in *.
  destruct o as [a|e|code|];
    try (exists d1; repeat split; auto; lia).
  destruct (Hh e w1) as (d2 & Ht2 & Hc2 & Hn2 & Hh2).
  exists (d2 ++ d1). rewrite count_app, <- app_assoc, <- Ht1. repeat split; auto; try lia.
  intros l Hl Hlt. rewrite Hh2 by (auto; lia). auto.
Qed.

Lemma fp_try0 {A} n (m : M A) (h : string -> M A) :
  footprint c f 0 m -> (forall e, footprint c f n (h e)) -> footprint c f n (try_catch m h).
Proof. intros. apply (fp_try 0 n); auto. Qed.

Lemma fp_stay {A} n (m : M A) :
  (forall w, exists o, m w = (o, w)) -> footprint c f n m.
Proof.
  intros H w. destruct (H w) as [o Ho]. rewrite Ho. exists []. simpl. repeat split; auto; lia.
Qed.

Lemma fp_ret {A} n (a : A) : footprint c f n (ret a).
Proof. apply fp_stay. intros w. eexists. reflexivity. Qed.

Lemma fp_throw {A} n e : footprint c f n (@throw A e).
Proof. apply fp_stay. intros w. eexists. reflexivity. Qed.

Lemma fp_exit {A} n code : footprint c f n (@exit A code).
Proof. apply fp_stay. intros w. eexists. reflexivity. Qed.

Lemma fp_blocked {A} n : footprint c f n (fun w => (@Blocked A, w)).
Proof. apply fp_stay. intros w. eexists. reflexivity. Qed.

Lemma fp_load n l : footprint c f n (load l).
Proof. apply fp_stay. intros w. unfold load. destruct (w_heap w !! l); eexists; reflexivity. Qed.

Lemma fp_getEditorCommand n : footprint c f n getEditorCommand.
Proof. apply fp_stay. intros w. eexists. reflexivity. Qed.

Lemma fp_emit n e : f e <= n -> footprint c f n (emit e).
Proof. intros He w. exists [e]. simpl. repeat split; auto; lia. Qed.

Lemma fp_question n p : (forall a, f (ev_answer p a) <= n) -> footprint c f n (question p).
Proof.
  intros Ha w. unfold question. destruct (w_inputs w) as [|a rest]; simpl.
  - exists []. simpl. repeat split; auto; lia.
  - exists [ev_answer p a]. simpl. specialize (Ha a). repeat split; auto; lia.
Qed.

Lemma fp_store n r : footprint c f n (store c r).
Proof.
  intros w. exists []. simpl. repeat split; auto.
  - lia.
  - intros l Hl _. by rewrite lookup_insert_ne.
Qed.

Lemma fp_alloc n r : footprint c f n (alloc r).
Proof.
  intros w. exists []. simpl. repeat split; auto.
  - lia.
  - intros l _ Hl. rewrite lookup_insert_ne; [done | lia].
Qed.

Lemma fp_executeEditor n content : f (ev_editor content) <= n -> footprint c f n (executeEditor content).
Proof.
  intros He w. unfold executeEditor.
  destruct (w_editor_out w) as [|[t|] rest]; exists [ev_editor content]; simpl;
    repeat split; auto; lia.
Qed.

Lemma fp_call_ai n g : f (ev_generate g) <= n -> footprint c f n (call_ai g).
Proof.
  intros He w. unfold call_ai.
  destruct (w_ai_out w) as [|[t|] rest]; exists [ev_generate g]; simpl;
    repeat split; auto; lia.
Qed.

Lemma fp_http_send n e : f e <= n -> footprint c f n (http_send e).
Proof.
  intros He w. unfold http_send, bind, emit. simpl.
  destruct (w_http_out w) as [|[u|t] rest]; exists [e]; simpl; repeat split; auto; lia.
Qed.

Lemma fp_findExistingPullRequest n repo sb tb :
  f (ev_get (api +:+ repo +:+ "/pulls?state=open&head=" +:+ sb +:+ "&base=" +:+ tb))
  + f (ev_error "Warning: Could not check for existing pull requests: request failed") <= n ->
  footprint c f n (findExistingPullRequest repo sb tb).
Proof.
  intros He w. unfold findExistingPullRequest, bind, emit. simpl.
  destruct (w_lookup w) as [[|p ps]|]; simpl.
  - eexists [_]. simpl. repeat split; eauto; lia.
  - eexists [_]. simpl. repeat split; eauto; lia.
  - eexists [_; _]. simpl. repeat split; eauto; lia.
Qed.

End Footprint.

(** Footprints of the building blocks, with mutations of the remote
    repository as the counted events. *)
Ltac fp_solve :=
  repeat match goal with
  | |- footprint _ _ _ (bind _ _) => apply fp_bind0; [|intro]
  | |- footprint _ _ _ (try_catch _ _) => apply fp_try0; [|intro]
  | |- footprint _ _ _ (ret _) => apply fp_ret
  | |- footprint _ _ _ (throw _) => apply fp_throw
  | |- footprint _ _ _ (exit _) => apply fp_exit
  | |- footprint _ _ _ (fun w => (Blocked, w)) => apply fp_blocked
  | |- footprint _ _ _ (load _) => apply fp_load
  | |- footprint _ _ _ (alloc _) => apply fp_alloc
  | |- footprint _ _ _ (store _ _) => apply fp_store
  | |- footprint _ _ _ getEditorCommand => apply fp_getEditorCommand
  | |- footprint _ _ _ (log _) => apply fp_emit; simpl; lia
  | |- footprint _ _ _ (log_error _) => apply fp_emit; simpl; lia
  | |- footprint _ _ _ rl_close => apply fp_emit; simpl; lia
  | |- footprint _ _ _ (emit _) => apply fp_emit; simpl; lia
  | |- footprint _ _ _ (question _) => apply fp_question; intros; simpl; lia
  | |- footprint _ _ _ (executeEditor _) => apply fp_executeEditor; simpl; lia
  | |- footprint _ _ _ (call_ai _) => apply fp_call_ai; simpl; lia
  | |- footprint _ _ _ (findExistingPullRequest _ _ _) =>
      apply fp_findExistingPullRequest; simpl; lia
  | |- footprint _ _ _ (load_result _) => unfold load_result
  | |- footprint _ _ _ (set_title _ _) => unfold set_title
  | |- footprint _ _ _ (set_description _ _) => unfold set_description
  | |- footprint _ _ _ (if ?b then _ else _) => destruct b
  | |- footprint _ _ _ (let '(_, _) := ?p in _) => destruct p
  | |- footprint _ _ _ (match ?x with _ => _ end) => destruct x
  end.

Lemma quiet_openInEditor c content : footprint c mut_of 0 (openInEditor content).
Proof. unfold openInEditor. fp_solve. Qed.

Lemma quiet_editPullRequestContent c t d : footprint c mut_of 0 (editPullRequestContent t d).
Proof. unfold editPullRequestContent. apply fp_bind0; [apply quiet_openInEditor|intro]. fp_solve. Qed.

Lemma quiet_generateMergeRequest c cfg g : footprint c mut_of 0 (generateMergeRequest cfg g).
Proof. unfold generateMergeRequest. fp_solve. Qed.

Lemma quiet_generateMergeRequestSafe c cfg g rn rs rt :
  footprint c mut_of 0 (generateMergeRequestSafe cfg g rn rs rt).
Proof.
  unfold generateMergeRequestSafe. fp_solve. apply quiet_generateMergeRequest.
Qed.

Lemma quiet_regenerateMergeRequest c cfg sb tb jira prev model :
  footprint c mut_of 0 (regenerateMergeRequest cfg sb tb jira prev model).
Proof.
  unfold regenerateMergeRequest. fp_solve.
  - apply quiet_openInEditor.
  - apply quiet_generateMergeRequest.
Qed.

Lemma quiet_showMenu c s : footprint c mut_of 0 (showMenu s).
Proof. unfold showMenu. fp_solve. Qed.

Lemma quiet_showCurrentResult c s : footprint c mut_of 0 (showCurrentResult s).
Proof. unfold showCurrentResult. fp_solve. Qed.

Lemma quiet_editManually s : footprint (s_current s) mut_of 0 (editManually s).
Proof. unfold editManually. fp_solve. apply quiet_showCurrentResult. Qed.

Lemma quiet_editWithEditor s : footprint (s_current s) mut_of 0 (editWithEditor s).
Proof.
  unfold editWithEditor. fp_solve;
    first [apply quiet_editPullRequestContent | apply quiet_showCurrentResult
          | apply quiet_editManually].
Qed.

Lemma quiet_regenerateWithInstructions cfg sb tb jira s :
  footprint (s_current s) mut_of 0 (regenerateWithInstructions cfg sb tb jira s).
Proof.
  unfold regenerateWithInstructions. fp_solve;
    first [apply quiet_regenerateMergeRequest | apply quiet_showCurrentResult].
Qed.

Lemma quiet_rollbackToOriginal c s : footprint c mut_of 0 (rollbackToOriginal s).
Proof. unfold rollbackToOriginal. fp_solve. apply quiet_showCurrentResult. Qed.

Lemma fp_createOrUpdatePullRequest_mut c a : footprint c mut_of 1 (createOrUpdatePullRequest a).
Proof.
  unfold createOrUpdatePullRequest. apply (fp_try c mut_of 1 0).
  - destruct (a_existingPR a);
      (apply (fp_bind c mut_of 1 0); [apply fp_http_send; simpl; lia | intro; fp_solve]).
  - intro. fp_solve.
Qed.

Lemma fp_createOrUpdatePullRequest_ans c a : footprint c ans_of 0 (createOrUpdatePullRequest a).
Proof.
  unfold createOrUpdatePullRequest. fp_solve; apply fp_http_send; simpl; lia.
Qed.

Lemma fp_save_mut c sb tb pc s : footprint c mut_of 1 (saveMergeRequest sb tb pc s).
Proof.
  unfold saveMergeRequest. apply (fp_bind c mut_of 1 0); [|intro; fp_solve].
  apply (fp_try c mut_of 1 0); [|intro; fp_solve].
  apply fp_bind0; [apply fp_load|intro].
  apply (fp_bind c mut_of 1 0); [apply fp_createOrUpdatePullRequest_mut|intro; fp_solve].
Qed.

Lemma fp_save_ans c sb tb pc s : footprint c ans_of 0 (saveMergeRequest sb tb pc s).
Proof.
  unfold saveMergeRequest. fp_solve. apply fp_createOrUpdatePullRequest_ans.
Qed.

Lemma save_returns sb tb pc s w : fst (saveMergeRequest sb tb pc s w) = Ret tt.
Proof.
  unfold saveMergeRequest, createOrUpdatePullRequest, try_catch, bind, load, http_send,
    rl_close, log, log_error, emit, ret, throw.
  unfold bind.
  destruct (w_heap w !! s_current s); simpl; [|reflexivity].
  destruct (pc_existingPR pc); simpl;
    destruct (w_http_out w) as [|[u|t] rest]; reflexivity.
Qed.

(** Two descriptions of what one run appended to the trace agree. *)
Lemma trace_delta_unique (d1 d2 t : list event) : d1 ++ t = d2 ++ t -> d1 = d2.
Proof. apply app_inv_tail. Qed.

Lemma prefix_nil (y : list event) : y = [] ++ y.
Proof. done. Qed.

Lemma prefix_step e x L (y : list event) : x = L ++ y -> e :: x = (e :: L) ++ y.
Proof. intros ->. done. Qed.

Ltac solve_prefix := repeat first [apply prefix_nil | eapply prefix_step].

(** The menu prints its lines and then reads one answer, trimmed. *)
Lemma showMenu_answer s w choice w1 :
  showMenu s w = (Ret choice, w1) ->
  exists a L rest,
    w_inputs w = a :: rest /\ w_inputs w1 = rest /\
    w_trace w1 = ev_answer (menu_prompt (s_hasChanges s)) a :: L ++ w_trace w /\
    choice = trim a /\ count mut_of L = 0 /\ w_heap w1 = w_heap w /\ w_next w1 = w_next w /\
    (forall e, In e L -> exists line, e = ev_log line) /\
    (In (ev_log "4. ↩️  Rollback to original version") L <-> s_hasChanges s = true).
Proof.
  unfold showMenu, bind, log, emit, question, ret.
  destruct (s_hasChanges s); simpl;
    destruct (w_inputs w) as [|a rest] eqn:Ein; simpl; intros [= <- <-];
    exists a; eexists; exists rest; simpl;
    (split; [done|]); (split; [done|]); (split; [f_equal; solve_prefix|]);
    (split; [done|]); (split; [reflexivity|]); (split; [done|]); (split; [done|]);
    (split; [intros e He; simpl in He; intuition (subst; eauto)|]);
    simpl; intuition (try done; try congruence).
Qed.

(** A stretch of trace whose one remote mutation comes after the user
    answered "1" at the menu of the interaction loop, with no prompt
    answered since. *)
Definition save_shaped (d : list event) : Prop :=
  exists post b a pre,
    d = post ++ ev_answer (menu_prompt b) a :: pre /\ trim a = "1" /\
    count ans_of post = 0 /\ count mut_of pre = 0.

(** [remote_safe m fin]: a run of [m] mutates the remote repository not at
    all, or once, as the save of the menu, in a run whose outcome is [fin]. *)
Definition remote_safe {A} (m : M A) (fin : outcome A -> Prop) : Prop :=
  forall w, exists d,
    w_trace (snd (m w)) = d ++ w_trace w /\
    (count mut_of d = 0 \/ (fin (fst (m w)) /\ count mut_of d = 1 /\ save_shaped d)).

Lemma save_shaped_app d1 d2 : save_shaped d2 -> count mut_of d1 = 0 -> save_shaped (d2 ++ d1).
Proof.
  intros (post & b & a & pre & -> & Ha & Hp & Hq) H1.
  exists post, b, a, (pre ++ d1). rewrite <- app_assoc. simpl.
  repeat split; auto. rewrite count_app. lia.
Qed.

Lemma rs_quiet {A} c (m : M A) fin : footprint c mut_of 0 m -> remote_safe m fin.
Proof.
  intros Hm w. destruct (Hm w) as (d & Ht & Hc & _). exists d. split; auto. left. lia.
Qed.

Lemma rs_bind {A B} c (m : M A) (k : A -> M B) fin :
  footprint c mut_of 0 m -> (forall a, remote_safe (k a) fin) -> remote_safe (bind m k) fin.
Proof.
  intros Hm Hk w. unfold bind.
  destruct (Hm w) as (d1 & Ht1 & Hc1 & _).
  destruct (m w) as [o w1]. simpl in *.
  destruct o as [a|e|code|]; try (exists d1; split; auto; left; lia).
  destruct (Hk a w1) as (d2 & Ht2 & Hd2). exists (d2 ++ d1).
  rewrite Ht2, Ht1, app_assoc. split; [done|]. rewrite count_app.
  destruct Hd2 as [H0 | (Hf & H1 & Hs)]; [left; lia | right].
  repeat split; auto; [lia | apply save_shaped_app; auto; lia].
Qed.

Lemma rs_try {A} c (m : M A) (h : string -> M A) fin :
  remote_safe m fin -> (forall e, ~ fin (Throw e)) -> (forall e, footprint c mut_of 0 (h e)) ->
  remote_safe (try_catch m h) fin.
Proof.
  intros Hm Hnf Hh w. unfold try_catch.
  destruct (Hm w) as (d1 & Ht1 & Hd1).
  destruct (m w) as [o w1]. simpl in *.
  destruct o as [a|e|code|]; try solve [exists d1; split; auto].
  destruct Hd1 as [H0 | (Hf & _)]; [|exfalso; exact (Hnf e Hf)].
  destruct (Hh e w1) as (d2 & Ht2 & Hc2 & _). exists (d2 ++ d1).
  rewrite Ht2, Ht1, app_assoc. split; [done|]. left. rewrite count_app. lia.
Qed.

(** One turn of the loop: only the save answer "1" reaches the remote. *)
Lemma loop_step_remote_safe cfg sb tb jira pc s :
  remote_safe (loop_step cfg sb tb jira pc s) (fun o => o = Ret None).
Proof.
  intros w.
  pose proof (quiet_showMenu 0 s) as Hm0. destruct (Hm0 w) as (d0 & Ht0 & Hc0 & _).
  destruct (loop_step cfg sb tb jira pc s w) as [o' w'] eqn:Er. simpl.
  unfold loop_step in Er. unfold bind at 1 in Er.
  destruct (showMenu s w) as [o w1] eqn:E. simpl in Ht0.
  destruct o as [choice|e|code|];
    try (injection Er as <- <-; exists d0; split; auto; left; lia).
  cbv beta iota in Er.
  destruct (showMenu_answer s w choice w1 E)
    as (a & L & rest & _ & _ & HtL & Hch & HcL & _ & _ & _ & _).
  destruct (String.eqb choice "1") eqn:E1.
  - apply String.eqb_eq in E1.
    pose proof (fp_save_mut 0 sb tb pc s) as Hsm. destruct (Hsm w1) as (ds & Hts & Hcs & _).
    pose proof (fp_save_ans 0 sb tb pc s) as Hsa. destruct (Hsa w1) as (ds' & Hts' & Hcs' & _).
    pose proof (save_returns sb tb pc s w1) as Hret.
    unfold bind at 1 in Er.
    destruct (saveMergeRequest sb tb pc s w1) as [os w2]. simpl in Hret, Hts, Hts'. subst os.
    injection Er as <- <-.
    rewrite Hts in Hts'. apply trace_delta_unique in Hts'. subst ds'.
    exists (ds ++ ev_answer (menu_prompt (s_hasChanges s)) a :: L).
    rewrite Hts, HtL, <- app_assoc. split; [done|].
    assert (count mut_of ds = 0 \/ count mut_of ds = 1) as [Hz|Ho] by lia.
    + left. rewrite count_app. simpl. lia.
    + right. split; [done|]. split; [rewrite count_app; simpl; lia|].
      exists ds, (s_hasChanges s), a, L. repeat split; auto; try congruence; lia.
  - match type of Er with ?m w1 = _ =>
      assert (Hq : footprint (s_current s) mut_of 0 m)
        by (fp_solve; first [apply quiet_editWithEditor | apply quiet_regenerateWithInstructions
                             | apply quiet_rollbackToOriginal])
    end.
    destruct (Hq w1) as (dq & Htq & Hcq & _). rewrite Er in Htq. simpl in Htq.
    exists (dq ++ ev_answer (menu_prompt (s_hasChanges s)) a :: L).
    rewrite Htq, HtL, <- app_assoc. split; [done|]. left.
    rewrite count_app. simpl. lia.
Qed.

Lemma interaction_loop_remote_safe cfg sb tb jira pc fuel s :
  remote_safe (interaction_loop cfg sb tb jira pc fuel s) (fun o => o = Ret tt).
Proof.
  revert s. induction fuel as [|fuel IH]; intros s w.
  - exists []. simpl. split; auto.
  - destruct (interaction_loop cfg sb tb jira pc (S fuel) s w) as [o' w'] eqn:Er. simpl.
    simpl in Er. unfold bind at 1 in Er.
    pose proof (loop_step_remote_safe cfg sb tb jira pc s) as Hls.
    destruct (Hls w) as (d1 & Ht1 & Hd1).
    destruct (loop_step cfg sb tb jira pc s w) as [o w1]. simpl in Ht1, Hd1.
    destruct o as [[s'|]|e|code|];
      try (injection Er as <- <-; exists d1; split; auto; destruct Hd1 as [H|(H&_)];
           [left; done | discriminate]).
    + destruct Hd1 as [H0|(H&_)]; [|discriminate].
      pose proof (IH s') as IHs. destruct (IHs w1) as (d2 & Ht2 & Hd2).
      rewrite Er in Ht2, Hd2. simpl in Ht2, Hd2. exists (d2 ++ d1).
      rewrite Ht2, Ht1, app_assoc. split; [done|]. rewrite count_app.
      destruct Hd2 as [Hz | (Hf & Ho & Hs)]; [left; lia | right].
      repeat split; auto; [lia | apply save_shaped_app; auto].
    + injection Er as <- <-. exists d1. split; auto.
      destruct Hd1 as [H|(_ & H1 & H2)]; [left | right]; auto.
Qed.

Lemma handleUserInteraction_remote_safe cfg sb tb jira pc fuel l :
  remote_safe (handleUserInteraction cfg sb tb jira pc fuel l) (fun o => o = Ret tt).
Proof.
  unfold handleUserInteraction. apply (rs_bind 0).
  - unfold start_session. fp_solve.
  - intro s. apply interaction_loop_remote_safe.
Qed.

Lemma executePRWorkflow_remote_safe fuel sb tb jira cfg repo rsb rtb rname :
  remote_safe (executePRWorkflow fuel sb tb jira cfg repo rsb rtb rname) (fun o => o = Ret tt).
Proof.
  unfold executePRWorkflow. cbv zeta. apply (rs_try 0).
  - repeat match goal with
    | |- remote_safe (bind _ _) _ =>
        apply (rs_bind 0);
        [ fp_solve; first [ apply quiet_generateMergeRequestSafe
                          | apply quiet_regenerateMergeRequest ]
        | intro ]
    | |- remote_safe (match ?x with _ => _ end) _ => destruct x
    | |- remote_safe (handleUserInteraction _ _ _ _ _ _ _) _ =>
        apply handleUserInteraction_remote_safe
    | |- remote_safe (ret _) _ => apply (rs_quiet 0), fp_ret
    end.
  - intros e He. discriminate.
  - intro e. fp_solve.
Qed.

(** * Claims *)

(** C1: in every run of the workflow the GitHub API receives at most one
    create (POST) or update (PATCH) request; when it receives one, the run
    ends normally through the save entry of the menu, the last answer the
    user typed being "1" at the interaction-loop menu; a run that ends in a
    cancellation ([process.exit(0)], at the existing-request gate or in the
    loop) sends none. *)
Theorem C1_remote_mutated_at_most_once_by_save fuel sb tb jira cfg repo rsb rtb rname w :
  let '(o, w') := executePRWorkflow fuel sb tb jira cfg repo rsb rtb rname w in
  exists d,
    w_trace w' = d ++ w_trace w /\
    count mut_of d <= 1 /\
    (count mut_of d = 1 -> o = Ret tt /\ save_shaped d) /\
    (o = Exit 0 -> count mut_of d = 0).
Proof.
  pose proof (executePRWorkflow_remote_safe fuel sb tb jira cfg repo rsb rtb rname) as H.
  destruct (H w) as (d & Ht & Hd).
  destruct (executePRWorkflow fuel sb tb jira cfg repo rsb rtb rname w) as [o w']. simpl in *.
  exists d. split; [done|].
  destruct Hd as [H0 | (Ho & H1 & Hs)].
  - rewrite H0. repeat split; try lia; intros; lia.
  - rewrite H1. repeat split; auto; intros; subst; discriminate.
Qed.

Ltac solve_in := simpl; repeat first [left; reflexivity | right].

(** C2 (failing run): with pull request #42 open, gate option 2 and no
    editor configured, the seeded regeneration fails; the engine announces
    "Falling back to fresh generation..." but makes no generation call at
    all, reads [result.title] on [undefined], and the run ends in the
    workflow error handler with exit code 1 without reaching the
    interaction loop (only the gate answer is read). *)
Theorem C2_seeded_gate_failure_exits_instead_of_fallback :
  let '(o, w') := run_demo (world_pr42 "" ["2"; "1"]) in
  o = Exit 1 /\
  count gen_of (w_trace w') = 0 /\
  count ans_of (w_trace w') = 1 /\
  In (ev_log "💡 Falling back to fresh generation...") (w_trace w') /\
  In (ev_error "❌ Workflow error: Cannot read properties of undefined (reading 'title')")
     (w_trace w').
Proof.
  vm_compute. split; [reflexivity|]. split; [reflexivity|]. split; [reflexivity|].
  split; solve_in.
Qed.

(** The same happens when the editor works and the AI backend fails. *)
Lemma seeded_gate_generation_failure_exits :
  let '(o, w') := run_demo (set_ai_out (world_pr42 "vim" ["2"; "1"]) [None; Some "Fresh"]) in
  o = Exit 1 /\ count gen_of (w_trace w') = 1 /\ count ans_of (w_trace w') = 1.
Proof. vm_compute. auto. Qed.

(** C6 (counterexample): an unrecognized answer "x" at the existing-request
    gate is not re-prompted: the run exits with code 0 at once, having read
    only that one answer; the next line the user typed is never read. *)
Lemma C6_gate_unrecognized_input_cancels :
  let '(o, w') := run_demo (world_pr42 "vim" ["x"; "1"; "1"]) in
  o = Exit 0 /\ w_inputs w' = ["1"; "1"] /\ count ans_of (w_trace w') = 1 /\
  count gen_of (w_trace w') = 0.
Proof. vm_compute. auto. Qed.

(** C6 (as the code has it): when an open pull request is found, the gate
    reads one answer; unless its trimmed text is "1" or "2" (so for "3",
    an empty line or any unrecognized text) the engine logs the
    cancellation, closes the prompt and exits with code 0, having made no
    generation call and no remote mutation and read no further input. *)
Theorem C6_gate_other_input_cancels fuel sb tb jira cfg repo rsb rtb rname w pr pulls a rest :
  w_lookup w = Some (pr :: pulls) ->
  w_inputs w = a :: rest ->
  trim a <> "1" -> trim a <> "2" ->
  let '(o, w') := executePRWorkflow fuel sb tb jira cfg repo rsb rtb rname w in
  o = Exit 0 /\ w_inputs w' = rest /\
  exists L,
    w_trace w' = ev_close :: ev_log gate_cancel_msg :: ev_answer gate_prompt a :: L ++ w_trace w /\
    count gen_of L = 0 /\ count mut_of L = 0 /\ count ans_of L = 0.
Proof.
  intros Hl Hin H1 H2.
  apply String.eqb_neq in H1, H2.
  unfold executePRWorkflow, findExistingPullRequest, question, log, log_error, rl_close,
    exit, emit, ret, try_catch, bind.
  simpl. rewrite Hl. simpl. rewrite Hin. simpl. rewrite H1, H2. simpl.
  split; [done|]. split; [done|].
  eexists. split; [do 3 f_equal; solve_prefix | simpl; auto].
Qed.

Lemma C6_gate_other_input_cancels_witness :
  w_lookup (world_pr42 "vim" ["x"]) = Some (pr42 :: []) /\
  w_inputs (world_pr42 "vim" ["x"]) = "x" :: [] /\
  trim "x" <> "1" /\ trim "x" <> "2" /\
  (let '(o, w') := run_demo (world_pr42 "vim" ["x"]) in
   o = Exit 0 /\ w_inputs w' = [] /\
   exists L,
     w_trace w' = ev_close :: ev_log gate_cancel_msg :: ev_answer gate_prompt "x"
                  :: L ++ w_trace (world_pr42 "vim" ["x"]) /\
     count gen_of L = 0 /\ count mut_of L = 0 /\ count ans_of L = 0).
Proof.
  split; [reflexivity|]. split; [reflexivity|].
  split; [vm_compute; discriminate|]. split; [vm_compute; discriminate|].
  apply (C6_gate_other_input_cancels 5 "feature" "main" "" cfg_demo "acme/app" None None
           (Some "origin") (world_pr42 "vim" ["x"]) pr42 [] "x" []);
    [reflexivity | reflexivity | vm_compute; discriminate | vm_compute; discriminate].
Defined.

(** ** Stepping through runs *)

Lemma bind_ret {A B} (m : M A) (k : A -> M B) w a w1 :
  m w = (Ret a, w1) -> bind m k w = k a w1.
Proof. intros H. unfold bind. by rewrite H. Qed.

Lemma bind_throw {A B} (m : M A) (k : A -> M B) w e w1 :
  m w = (Throw e, w1) -> bind m k w = (Throw e, w1).
Proof. intros H. unfold bind. by rewrite H. Qed.

Lemma try_ret {A} (m : M A) h w a w1 : m w = (Ret a, w1) -> try_catch m h w = (Ret a, w1).
Proof. intros H. unfold try_catch. by rewrite H. Qed.

Lemma try_throw {A} (m : M A) h w e w1 : m w = (Throw e, w1) -> try_catch m h w = h e w1.
Proof. intros H. unfold try_catch. by rewrite H. Qed.

Lemma or_str_empty t x : or_str t x = if String.eqb t "" then x else t.
Proof. unfold or_str, truthy. by destruct (String.eqb t ""). Qed.

(** The menu, given an answer, returns it trimmed and touches nothing but
    the trace and the input. *)
Lemma showMenu_run s w a rest :
  w_inputs w = a :: rest ->
  exists t, showMenu s w = (Ret (trim a), set_trace (set_inputs w rest) t).
Proof.
  intros Hin. unfold showMenu, question, log, emit, ret, bind.
  destruct (s_hasChanges s); simpl; rewrite Hin; eexists; reflexivity.
Qed.

(** C7: an answer the current menu does not offer leaves the session, the
    heap and the remote untouched: the turn logs the invalid-option error
    naming the range 1-4 (no changes yet) or 1-5 (changes exist) and the
    loop goes round again to a new prompt. *)
Theorem C7_unrecognized_menu_input cfg sb tb jira pc s w a rest :
  w_inputs w = a :: rest ->
  recognized (s_hasChanges s) (trim a) = false ->
  exists w',
    loop_step cfg sb tb jira pc s w = (Ret (Some s), w') /\
    w_heap w' = w_heap w /\ w_next w' = w_next w /\ w_inputs w' = rest /\
    exists L,
      w_trace w' = ev_log (invalid_msg (max_option (s_hasChanges s)))
                   :: ev_answer (menu_prompt (s_hasChanges s)) a :: L ++ w_trace w /\
      count mut_of L = 0 /\ (forall e, In e L -> exists line, e = ev_log line).
Proof.
  intros Hin Hr.
  destruct (showMenu_run s w a rest Hin) as [t Hm].
  destruct (showMenu_answer s w (trim a) _ Hm)
    as (a' & L & rest' & Hin' & _ & HtL & _ & HcL & _ & _ & HL & _).
  rewrite Hin in Hin'. injection Hin' as <- <-.
  unfold loop_step. rewrite (bind_ret _ _ _ _ _ Hm).
  unfold recognized in Hr.
  simpl in HtL. subst t.
  destruct (String.eqb (trim a) "1"), (String.eqb (trim a) "2"), (String.eqb (trim a) "3"),
    (String.eqb (trim a) "4"); try discriminate. simpl.
  destruct (s_hasChanges s) eqn:Hc; simpl in Hr.
  - rewrite Hr. eexists. split; [reflexivity|]. simpl. repeat split; auto. exists L. auto.
  - destruct (String.eqb (trim a) "5"); eexists; (split; [reflexivity|]); simpl;
      repeat split; auto; exists L; auto.
Qed.

Lemma C7_unrecognized_menu_input_witness :
  w_inputs (world_pr42 "vim" ["7"]) = "7" :: [] /\
  recognized (s_hasChanges (mkSession 0 1 2 true)) (trim "7") = false /\
  exists w',
    loop_step cfg_demo "feature" "main" "" (mkPrConfig "acme/app" "ghp_token" None None None)
      (mkSession 0 1 2 true) (world_pr42 "vim" ["7"]) = (Ret (Some (mkSession 0 1 2 true)), w') /\
    w_heap w' = w_heap (world_pr42 "vim" ["7"]) /\ w_next w' = w_next (world_pr42 "vim" ["7"]) /\
    w_inputs w' = [] /\
    exists L,
      w_trace w' = ev_log (invalid_msg (max_option true))
                   :: ev_answer (menu_prompt true) "7" :: L ++ w_trace (world_pr42 "vim" ["7"]) /\
      count mut_of L = 0 /\ (forall e, In e L -> exists line, e = ev_log line).
Proof.
  split; [reflexivity|]. split; [reflexivity|].
  apply (C7_unrecognized_menu_input cfg_demo "feature" "main" ""
           (mkPrConfig "acme/app" "ghp_token" None None None) (mkSession 0 1 2 true)
           (world_pr42 "vim" ["7"]) "7" []); reflexivity.
Defined.

(** C5: saving sends exactly one request: with an existing pull request a
    PATCH addressed by its number, otherwise a POST for the (remote) source
    and target branches, both with the live draft's title and description;
    on success the resulting URL is printed; then the prompt is closed. *)
Theorem C5_save_dispatch sb tb pc s w r h rest :
  w_heap w !! s_current s = Some r ->
  w_http_out w = h :: rest ->
  exists w',
    saveMergeRequest sb tb pc s w = (Ret tt, w') /\
    w_trace w' = ev_close :: save_report pc h :: save_request sb tb pc r :: w_trace w /\
    w_http_out w' = rest.
Proof.
  intros Hr Hh.
  unfold saveMergeRequest, createOrUpdatePullRequest, http_send, load, rl_close, log, log_error,
    emit, ret, throw, try_catch, bind.
  simpl. rewrite Hr. simpl.
  unfold save_report, save_request.
  destruct (pc_existingPR pc); simpl; rewrite Hh; destruct h; simpl; eexists; eauto.
Qed.

Lemma C5_save_dispatch_witness :
  let pc := mkPrConfig "acme/app" "ghp_token" (Some pr42) None None in
  let s := mkSession 0 1 2 true in
  let w := set_heap (world_pr42 "vim" []) {[1 := mkResult "New" "New body" "ChatGPT" "gpt-4o"]} 3 in
  w_heap w !! s_current s = Some (mkResult "New" "New body" "ChatGPT" "gpt-4o") /\
  w_http_out w = http_ok "https://github.com/acme/app/pull/42" :: [] /\
  exists w',
    saveMergeRequest "feature" "main" pc s w = (Ret tt, w') /\
    w_trace w' = ev_close :: save_report pc (http_ok "https://github.com/acme/app/pull/42")
                 :: save_request "feature" "main" pc (mkResult "New" "New body" "ChatGPT" "gpt-4o")
                 :: w_trace w /\
    w_http_out w' = [].
Proof.
  cbv zeta. split; [reflexivity|]. split; [reflexivity|].
  apply C5_save_dispatch; reflexivity.
Defined.

(** C10: in the manual entry an empty title keeps the current title and an
    empty description keeps the current description; in every case the
    session is marked as changed, even when both answers are empty and the
    draft is textually what it was. *)
Theorem C10_manual_edit_keeps_empty_answers s w r t d rest :
  w_heap w !! s_current s = Some r ->
  w_inputs w = t :: d :: rest ->
  let '(o, w') := editManually s w in
  o = Ret (with_changes s true) /\
  s_hasChanges (with_changes s true) = true /\
  w_heap w' !! s_current s =
    Some (mkResult (if String.eqb t "" then r_title r else t)
                   (if String.eqb d "" then r_description r else d)
                   (r_aiModel r) (r_model r)) /\
  (t = "" -> d = "" -> w_heap w' !! s_current s = Some r).
Proof.
  intros Hr Hin.
  unfold editManually, showCurrentResult, set_title, set_description, question, load, store,
    log, emit, ret, bind.
  simpl. rewrite Hin.
  repeat (simpl; first [rewrite Hr | rewrite lookup_insert_eq]).
  simpl. rewrite !or_str_empty.
  split; [done|]. split; [done|]. split; [done|].
  intros -> ->. simpl. by destruct r.
Qed.

Lemma C10_manual_edit_keeps_empty_answers_witness :
  let s := mkSession 0 1 2 false in
  let r := mkResult "T1" "D1" "ChatGPT" "gpt-4o" in
  let w := set_heap (world_pr42 "" [""; ""]) {[1 := r]} 3 in
  w_heap w !! s_current s = Some r /\ w_inputs w = "" :: "" :: [] /\
  (let '(o, w') := editManually s w in
   o = Ret (with_changes s true) /\
   s_hasChanges (with_changes s true) = true /\
   w_heap w' !! s_current s =
     Some (mkResult (if String.eqb "" "" then r_title r else "")
                    (if String.eqb "" "" then r_description r else "")
                    (r_aiModel r) (r_model r)) /\
   ("" = "" -> "" = "" -> w_heap w' !! s_current s = Some r)).
Proof.
  cbv zeta. split; [reflexivity|]. split; [reflexivity|].
  apply (C10_manual_edit_keeps_empty_answers (mkSession 0 1 2 false)
           (set_heap (world_pr42 "" [""; ""]) {[1 := mkResult "T1" "D1" "ChatGPT" "gpt-4o"]} 3)
           (mkResult "T1" "D1" "ChatGPT" "gpt-4o") "" "" []); reflexivity.
Defined.

Lemma cons2_prefix a b x L (y : list event) : x = L ++ y -> a :: b :: x = a :: b :: L ++ y.
Proof. intros ->. done. Qed.

Ltac regen_fail_done :=
  eexists _, _, _; split; [reflexivity|]; simpl;
  split; [reflexivity|]; split; [reflexivity|]; split; [reflexivity|];
  split; [apply cons2_prefix; solve_prefix | reflexivity].

(** A regeneration that cannot succeed is caught: the session is returned
    as it was, the heap is untouched and the failure is logged. *)
Lemma regenerate_failure cfg sb tb jira s w :
  regeneration_succeeds cfg s w = false ->
  exists w' e L,
    regenerateWithInstructions cfg sb tb jira s w = (Ret s, w') /\
    w_heap w' = w_heap w /\ w_next w' = w_next w /\ w_inputs w' = w_inputs w /\
    w_trace w' = ev_log "💡 Continuing with current content..."
                 :: ev_error ("❌ Failed to regenerate: " +:+ e) :: L ++ w_trace w /\
    count mut_of L = 0.
Proof.
  unfold regeneration_succeeds. intros H.
  unfold regenerateWithInstructions, regenerateMergeRequest, openInEditor, generateMergeRequest,
    executeEditor, call_ai, try_catch, load, log, log_error, emit, getEditorCommand, throw, ret,
    bind.
  simpl.
  destruct (w_heap w !! s_current s) as [r|] eqn:Hc; simpl; [|regen_fail_done].
  destruct (w_heap w !! s_initial s) as [ini|] eqn:Hi; simpl; [|regen_fail_done].
  destruct (truthy (w_editorCommand w)) eqn:He; simpl; [|regen_fail_done].
  destruct (w_editor_out w) as [|[buf|] erest] eqn:Eo; simpl; try regen_fail_done.
  unfold supported_model in H.
  destruct (String.eqb (to_lower (r_aiModel ini)) "chatgpt" || String.eqb (to_lower (r_aiModel ini)) "openai"
            || String.eqb (to_lower (r_aiModel ini)) "gpt") eqn:Hm; simpl; [|regen_fail_done].
  destruct (truthy (cfg_openaiToken cfg)) eqn:Ht; simpl; [|regen_fail_done].
  destruct (w_ai_out w) as [|[reply|] arest] eqn:Ea; simpl; try regen_fail_done.
  discriminate.
Qed.

(** C9: when menu option 3 cannot succeed (no editor, an editor error, an
    unsupported model, no token or a failed AI call), the turn logs the
    failure and returns the very same session (same live draft location,
    same [hasChanges]), the heap is untouched, nothing remote happens, and
    the loop goes on to its next menu prompt. *)
Theorem C9_failed_regeneration_keeps_draft cfg sb tb jira pc s w a rest fuel :
  w_inputs w = a :: rest ->
  trim a = "3" ->
  regeneration_succeeds cfg s w = false ->
  exists w' e L,
    loop_step cfg sb tb jira pc s w = (Ret (Some s), w') /\
    interaction_loop cfg sb tb jira pc (S fuel) s w = interaction_loop cfg sb tb jira pc fuel s w' /\
    w_heap w' = w_heap w /\ w_next w' = w_next w /\ w_inputs w' = rest /\
    w_trace w' = ev_log "💡 Continuing with current content..."
                 :: ev_error ("❌ Failed to regenerate: " +:+ e) :: L ++ w_trace w /\
    count mut_of L = 0.
Proof.
  intros Hin Ha Hfail.
  destruct (showMenu_run s w a rest Hin) as [t Hm].
  destruct (showMenu_answer s w (trim a) _ Hm)
    as (a' & L0 & rest' & Hin' & _ & HtL & _ & HcL & _ & _ & _ & _).
  rewrite Hin in Hin'. injection Hin' as <- <-.
  simpl in HtL. subst t.
  set (w1 := set_trace (set_inputs w rest) (ev_answer (menu_prompt (s_hasChanges s)) a :: L0 ++ w_trace w)).
  assert (Hf1 : regeneration_succeeds cfg s w1 = false) by exact Hfail.
  destruct (regenerate_failure cfg sb tb jira s w1 Hf1) as (w' & e & L & Hr & Hh & Hn & Hi & Ht & Hc).
  assert (Hstep : loop_step cfg sb tb jira pc s w = (Ret (Some s), w')).
  { unfold loop_step. rewrite (bind_ret _ _ _ _ _ Hm). rewrite Ha. simpl.
    fold w1. rewrite (bind_ret _ _ _ _ _ Hr). reflexivity. }
  exists w', e, (L ++ ev_answer (menu_prompt (s_hasChanges s)) a :: L0).
  split; [exact Hstep|].
  split; [simpl; rewrite (bind_ret _ _ _ _ _ Hstep); reflexivity|].
  rewrite Hh, Hn, Hi, Ht. simpl.
  repeat split; try reflexivity.
  - rewrite <- app_assoc. reflexivity.
  - rewrite count_app. simpl. rewrite Hc, HcL. reflexivity.
Qed.

Lemma C9_failed_regeneration_keeps_draft_witness :
  let s := mkSession 0 1 2 true in
  let w := set_heap (world_pr42 "" ["3"])
             {[0 := mkResult "T0" "D0" "ChatGPT" "gpt-4o"; 1 := mkResult "T1" "D1" "ChatGPT" "gpt-4o";
               2 := mkResult "T0" "D0" "ChatGPT" "gpt-4o"]} 3 in
  w_inputs w = "3" :: [] /\ trim "3" = "3" /\ regeneration_succeeds cfg_demo s w = false /\
  exists w' e L,
    loop_step cfg_demo "feature" "main" "" (mkPrConfig "acme/app" "ghp_token" None None None) s w
      = (Ret (Some s), w') /\
    interaction_loop cfg_demo "feature" "main" "" (mkPrConfig "acme/app" "ghp_token" None None None)
      (S 0) s w
      = interaction_loop cfg_demo "feature" "main" "" (mkPrConfig "acme/app" "ghp_token" None None None)
          0 s w' /\
    w_heap w' = w_heap w /\ w_next w' = w_next w /\ w_inputs w' = [] /\
    w_trace w' = ev_log "💡 Continuing with current content..."
                 :: ev_error ("❌ Failed to regenerate: " +:+ e) :: L ++ w_trace w /\
    count mut_of L = 0.
Proof.
  cbv zeta. split; [reflexivity|]. split; [reflexivity|]. split; [reflexivity|].
  apply (C9_failed_regeneration_keeps_draft _ _ _ _ _ _ _ "3" [] 0); reflexivity.
Defined.

(** When its environment allows it, menu option 3 replaces the live draft
    and marks the session as changed. *)
Lemma regenerate_success cfg sb tb jira s w :
  regeneration_succeeds cfg s w = true ->
  exists w', regenerateWithInstructions cfg sb tb jira s w = (Ret (with_changes s true), w').
Proof.
  unfold regeneration_succeeds. intros H.
  unfold regenerateWithInstructions, regenerateMergeRequest, openInEditor, generateMergeRequest,
    executeEditor, call_ai, showCurrentResult, set_title, set_description, store, alloc,
    try_catch, load, log, log_error, emit, getEditorCommand, throw, ret, bind.
  simpl.
  destruct (w_heap w !! s_current s) as [r|] eqn:Hc; simpl; [|discriminate].
  destruct (w_heap w !! s_initial s) as [ini|] eqn:Hi; simpl; [|discriminate].
  unfold supported_model in H.
  destruct (truthy (w_editorCommand w)) eqn:He; simpl; [|discriminate].
  destruct (w_editor_out w) as [|[buf|] erest] eqn:Eo; simpl; try discriminate.
  destruct (String.eqb (to_lower (r_aiModel ini)) "chatgpt" || String.eqb (to_lower (r_aiModel ini)) "openai"
            || String.eqb (to_lower (r_aiModel ini)) "gpt") eqn:Hm; simpl; [|discriminate].
  destruct (truthy (cfg_openaiToken cfg)) eqn:Ht; simpl; [|discriminate].
  destruct (w_ai_out w) as [|[reply|] arest] eqn:Ea; simpl; try discriminate.
  destruct (parse_ai_reply reply) as [ti de]. simpl.
  rewrite lookup_insert_eq. simpl.
  destruct (decide (w_next w = s_current s)) as [Heq|Hne].
  - rewrite Heq. repeat progress (simpl; rewrite ?lookup_insert_eq). eexists. reflexivity.
  - rewrite lookup_insert_ne by done. rewrite Hc.
    repeat progress (simpl; rewrite ?lookup_insert_eq). eexists. reflexivity.
Qed.

(** ** What an action returns when it returns normally *)

Definition returns_only {A} (m : M A) (P : A -> Prop) : Prop :=
  forall w a w', m w = (Ret a, w') -> P a.

Lemma ro_ret {A} (a : A) (P : A -> Prop) : P a -> returns_only (ret a) P.
Proof. intros HP w b w' [= <- _]. exact HP. Qed.

Lemma ro_bind {A B} (m : M A) (k : A -> M B) P :
  (forall a, returns_only (k a) P) -> returns_only (bind m k) P.
Proof.
  intros Hk w b w'. unfold bind.
  destruct (m w) as [[a|e|code|] w1]; try discriminate. apply Hk.
Qed.

Lemma ro_try {A} (m : M A) h P :
  returns_only m P -> (forall e, returns_only (h e) P) -> returns_only (try_catch m h) P.
Proof.
  intros Hm Hh w b w'. unfold try_catch.
  destruct (m w) as [[a|e|code|] w1] eqn:E; try discriminate.
  - intros [= <- _]. exact (Hm _ _ _ E).
  - apply Hh.
Qed.

Ltac ro_solve :=
  repeat first
    [ solve [apply ro_ret; simpl; auto]
    | apply ro_bind; intros ?
    | apply ro_try; [|intros ?]
    | match goal with |- returns_only (if ?b then _ else _) _ => destruct b end ].

Lemma editManually_returns s : returns_only (editManually s) (fun s' => s' = with_changes s true).
Proof. unfold editManually. ro_solve. Qed.

Lemma editWithEditor_returns s :
  returns_only (editWithEditor s) (fun s' => s' = with_changes s true).
Proof.
  unfold editWithEditor. ro_solve; apply editManually_returns.
Qed.

Lemma rollbackToOriginal_returns s :
  returns_only (rollbackToOriginal s)
    (fun s' => s_hasChanges s' = false /\ s_original s' = s_original s /\ s_initial s' = s_initial s).
Proof. unfold rollbackToOriginal. ro_solve. Qed.

Lemma start_session_returns l :
  returns_only (start_session l) (fun s => s_hasChanges s = false /\ s_initial s = l).
Proof. unfold start_session. ro_solve. Qed.

(** The menu offers rollback exactly when there are changes, and cancel
    always, as entry 5 or 4. *)
Lemma showMenu_shape s w choice w1 :
  showMenu s w = (Ret choice, w1) ->
  exists a L,
    w_trace w1 = ev_answer (menu_prompt (s_hasChanges s)) a :: L ++ w_trace w /\
    (In (ev_log rollback_line) L <-> s_hasChanges s = true) /\
    In (ev_log (cancel_line (s_hasChanges s))) L.
Proof.
  unfold showMenu, bind, log, emit, question, ret, rollback_line, cancel_line.
  destruct (s_hasChanges s); simpl;
    destruct (w_inputs w) as [|a rest] eqn:Ein; simpl; intros [= <- <-];
    exists a; eexists; simpl;
    (split; [f_equal; solve_prefix|]);
    (split; [simpl; intuition (try done; try congruence)|]); solve_in.
Qed.

(** A turn with menu option 3 in an environment where regeneration works:
    the loop continues with the session marked as changed. *)
Lemma regeneration_succeeds_example :
  exists w',
    loop_step cfg_demo "feature" "main" "" (mkPrConfig "acme/app" "ghp_token" None None None)
      (mkSession 0 1 2 false)
      (set_heap (world_pr42 "vim" ["3"])
         {[0 := mkResult "T0" "D0" "ChatGPT" "gpt-4o"; 1 := mkResult "T0" "D0" "ChatGPT" "gpt-4o";
           2 := mkResult "T0" "D0" "ChatGPT" "gpt-4o"]} 3)
    = (Ret (Some (mkSession 0 1 2 true)), w').
Proof. eexists. vm_compute. reflexivity. Qed.

(** C4: [hasChanges] is false right after the session starts on the
    initial draft and after every rollback, and true after every edit
    (through the editor or its manual fallback) and every regeneration
    that succeeds; the menu offers rollback exactly when it is true, and
    always offers cancel (as entry 5 with changes, entry 4 without). *)
Theorem C4_has_changes_flag cfg sb tb jira :
  (forall l w s w', start_session l w = (Ret s, w') -> s_hasChanges s = false) /\
  (forall s w s' w', rollbackToOriginal s w = (Ret s', w') -> s_hasChanges s' = false) /\
  (forall s w s' w', editWithEditor s w = (Ret s', w') -> s_hasChanges s' = true) /\
  (forall s w s' w', editManually s w = (Ret s', w') -> s_hasChanges s' = true) /\
  (forall s w, regeneration_succeeds cfg s w = true ->
     exists w', regenerateWithInstructions cfg sb tb jira s w = (Ret (with_changes s true), w')
                /\ s_hasChanges (with_changes s true) = true) /\
  (forall s w choice w1, showMenu s w = (Ret choice, w1) ->
     exists a L,
       w_trace w1 = ev_answer (menu_prompt (s_hasChanges s)) a :: L ++ w_trace w /\
       (In (ev_log rollback_line) L <-> s_hasChanges s = true) /\
       In (ev_log (cancel_line (s_hasChanges s))) L).
Proof.
  split; [intros l w s w' H; exact (proj1 (start_session_returns l w s w' H))|].
  split; [intros s w s' w' H; exact (proj1 (rollbackToOriginal_returns s w s' w' H))|].
  split; [intros s w s' w' H; rewrite (editWithEditor_returns s w s' w' H); reflexivity|].
  split; [intros s w s' w' H; rewrite (editManually_returns s w s' w' H); reflexivity|].
  split.
  - intros s w H. destruct (regenerate_success cfg sb tb jira s w H) as [w' Hw].
    exists w'. split; [exact Hw | reflexivity].
  - exact showMenu_shape.
Qed.

(** ** The instructions the editor buffer yields, in the words of the spec *)

Lemma str_app_cons x a b : String x a +:+ b = String x (a +:+ b).
Proof. reflexivity. Qed.

Lemma str_app_nil_l b : EmptyString +:+ b = b.
Proof. reflexivity. Qed.

Lemma str_app_assoc a b c : a +:+ (b +:+ c) = (a +:+ b) +:+ c.
Proof. induction a as [|x a IH]; rewrite ?str_app_cons, ?str_app_nil_l; congruence. Qed.

Lemma str_app_nil_r a : a +:+ EmptyString = a.
Proof. induction a as [|x a IH]; rewrite ?str_app_cons, ?str_app_nil_l; congruence. Qed.

Lemma rev_str_acc s acc : rev_str s acc = rev_str s EmptyString +:+ acc.
Proof.
  revert acc. induction s as [|c s IH]; intros acc; simpl; [done|].
  rewrite (IH (String c acc)), (IH (String c EmptyString)).
  rewrite <- str_app_assoc. done.
Qed.

Lemma rev_str_app a b : rev_str (a +:+ b) EmptyString = rev_str b EmptyString +:+ rev_str a EmptyString.
Proof.
  induction a as [|c a IH].
  - rewrite str_app_nil_l. simpl. by rewrite str_app_nil_r.
  - rewrite str_app_cons. simpl.
    rewrite (rev_str_acc (a +:+ b)), IH, (rev_str_acc a (String c EmptyString)).
    by rewrite str_app_assoc.
Qed.

Lemma trim_start_snoc x c :
  is_ws c = false -> exists z, trim_start (x +:+ String c EmptyString) = z +:+ String c EmptyString.
Proof.
  intros Hc. induction x as [|d x IH].
  - rewrite str_app_nil_l. simpl. rewrite Hc. by exists EmptyString.
  - rewrite str_app_cons. simpl. destruct (is_ws d); [exact IH|]. by exists (String d x).
Qed.

Lemma trim_start_head s c u : trim_start s = String c u -> is_ws c = false.
Proof.
  induction s as [|d s IH]; simpl; [discriminate|].
  destruct (is_ws d) eqn:Hd; [exact IH|]. by intros [= <- _].
Qed.

Lemma trim_end_head c u : is_ws c = false -> exists v, trim_end (String c u) = String c v.
Proof.
  intros Hc. unfold trim_end.
  change (String c u) with (String c EmptyString +:+ u).
  rewrite rev_str_app. simpl.
  destruct (trim_start_snoc (rev_str u EmptyString) c Hc) as [z Hz]. rewrite Hz.
  rewrite rev_str_app. simpl. rewrite str_app_cons, str_app_nil_l.
  by exists (rev_str z EmptyString).
Qed.

Lemma first_non_ws_trim_start s :
  first_non_ws s = match trim_start s with String c _ => Some c | EmptyString => None end.
Proof. induction s as [|c s IH]; simpl; [done|]. by destruct (is_ws c). Qed.

(** [line.trim().startsWith("#")] is the spec's test for a comment line. *)
Lemma starts_with_hash_trim line : starts_with "#" (trim line) = is_comment_line line.
Proof.
  unfold is_comment_line, trim. rewrite first_non_ws_trim_start.
  destruct (trim_start line) as [|c u] eqn:E; [reflexivity|].
  destruct (trim_end_head c u (trim_start_head _ _ _ E)) as [v ->].
  change (Ascii.eqb "#" c && true = Ascii.eqb c "#"). rewrite andb_true_r.
  destruct (Ascii.eqb_spec "#" c), (Ascii.eqb_spec c "#"); congruence.
Qed.

Lemma instructions_of_spec buf : instructions_of buf = spec_instructions buf.
Proof.
  unfold instructions_of, spec_instructions. f_equal. f_equal.
  apply filter_ext. intros line. by rewrite starts_with_hash_trim.
Qed.

(** C8: on the seeded path the editor buffer becomes the additional
    instructions of the one generation call: the buffer with its comment
    lines (first non-whitespace character ['#']) removed and the blank
    padding trimmed; ["# comment\nFocus on perf\n"] gives exactly
    ["Focus on perf"]. *)
Theorem C8_seeded_instructions cfg sb tb jira prev model w buf rest :
  truthy (w_editorCommand w) = true ->
  w_editor_out w = Some buf :: rest ->
  supported_model model = true ->
  truthy (cfg_openaiToken cfg) = true ->
  (exists d,
     w_trace (snd (regenerateMergeRequest cfg sb tb jira prev model w)) =
       d ++ ev_generate (mkGenCall sb tb jira model (Some (spec_instructions buf)) (Some prev))
         :: ev_log "🔄 Regenerating with additional instructions..."
         :: ev_editor templateContent
         :: ev_log "🚀 Opening editor for additional instructions..." :: w_trace w /\
     count gen_of d = 0) /\
  instructions_of ("# comment" +:+ nl_s +:+ "Focus on perf" +:+ nl_s) = "Focus on perf".
Proof.
  intros He Eo Hm Ht. split; [|reflexivity].
  rewrite <- instructions_of_spec.
  unfold supported_model in Hm.
  unfold regenerateMergeRequest, openInEditor, generateMergeRequest, executeEditor, call_ai,
    alloc, try_catch, log, log_error, emit, getEditorCommand, throw, ret, bind.
  simpl. rewrite He. simpl. rewrite Eo. simpl. rewrite Hm, Ht. simpl.
  destruct (w_ai_out w) as [|[reply|] arest]; simpl.
  - eexists. split; [solve_prefix|reflexivity].
  - destruct (parse_ai_reply reply). simpl. exists []. split; reflexivity.
  - eexists. split; [solve_prefix|reflexivity].
Qed.

Lemma C8_seeded_instructions_witness :
  truthy (w_editorCommand (world_pr42 "vim" [])) = true /\
  w_editor_out (world_pr42 "vim" []) = Some ("# comment" +:+ nl_s +:+ "Focus on perf" +:+ nl_s) :: [] /\
  supported_model "ChatGPT" = true /\ truthy (cfg_openaiToken cfg_demo) = true /\
  (exists d,
     w_trace (snd (regenerateMergeRequest cfg_demo "feature" "main" "" ("Old", "Old body") "ChatGPT"
                     (world_pr42 "vim" []))) =
       d ++ ev_generate (mkGenCall "feature" "main" "" "ChatGPT"
                           (Some (spec_instructions ("# comment" +:+ nl_s +:+ "Focus on perf" +:+ nl_s)))
                           (Some ("Old", "Old body")))
         :: ev_log "🔄 Regenerating with additional instructions..."
         :: ev_editor templateContent
         :: ev_log "🚀 Opening editor for additional instructions..." :: w_trace (world_pr42 "vim" []) /\
     count gen_of d = 0) /\
  instructions_of ("# comment" +:+ nl_s +:+ "Focus on perf" +:+ nl_s) = "Focus on perf".
Proof.
  split; [reflexivity|]. split; [reflexivity|]. split; [reflexivity|]. split; [reflexivity|].
  apply (C8_seeded_instructions _ _ _ _ _ _ _ _ []); reflexivity.
Defined.

(** ** The original snapshot across the interaction loop *)

Lemma bind_inv {A B} (m : M A) (k : A -> M B) w b w' :
  bind m k w = (Ret b, w') -> exists a w1, m w = (Ret a, w1) /\ k a w1 = (Ret b, w').
Proof.
  unfold bind. destruct (m w) as [[a|e|code|] w1]; try discriminate.
  intros H. by exists a, w1.
Qed.

Lemma regenerateWithInstructions_returns cfg sb tb jira s :
  returns_only (regenerateWithInstructions cfg sb tb jira s)
    (fun s' => s' = with_changes s true \/ s' = s).
Proof. unfold regenerateWithInstructions. ro_solve. Qed.

(** A rollback copies the snapshot into a fresh heap cell. *)
Lemma rollback_run s w o :
  w_heap w !! s_original s = Some o ->
  exists w',
    rollbackToOriginal s w = (Ret (mkSession (s_initial s) (w_next w) (s_original s) false), w') /\
    w_heap w' = <[w_next w := o]> (w_heap w) /\ w_next w' = S (w_next w).
Proof.
  intros Ho.
  unfold rollbackToOriginal, showCurrentResult, load, alloc, log, emit, ret, bind.
  simpl. rewrite Ho. simpl. rewrite lookup_insert_eq. simpl.
  eexists. split; [reflexivity|]. split; reflexivity.
Qed.

Lemma rollback_returns_fresh s w s' w' :
  rollbackToOriginal s w = (Ret s', w') ->
  s_current s' = w_next w /\ s_original s' = s_original s /\ s_initial s' = s_initial s.
Proof.
  destruct (w_heap w !! s_original s) as [o|] eqn:Ho.
  - destruct (rollback_run s w o Ho) as (w1 & Hr & _). rewrite Hr.
    intros [= <- _]. simpl. auto.
  - unfold rollbackToOriginal, load, bind. rewrite Ho. discriminate.
Qed.

(** [currentResult = { ...initialResult }; originalResult = { ...initialResult }]. *)
Lemma start_session_run l w ini :
  w_heap w !! l = Some ini -> l < w_next w ->
  start_session l w =
    (Ret (mkSession l (w_next w) (S (w_next w)) false),
     set_heap w (<[S (w_next w) := ini]> (<[w_next w := ini]> (w_heap w))) (S (S (w_next w)))).
Proof.
  intros Hl Hlt. unfold start_session, load, alloc, ret, bind. simpl. rewrite Hl. simpl.
  rewrite lookup_insert_ne by lia. rewrite Hl. reflexivity.
Qed.

Lemma fp_loop_step cfg sb tb jira pc s :
  footprint (s_current s) mut_of 1 (loop_step cfg sb tb jira pc s).
Proof.
  unfold loop_step. apply fp_bind0; [apply quiet_showMenu|intro choice].
  destruct (String.eqb choice "1").
  - apply (fp_bind _ _ 1 0); [apply fp_save_mut | intro; fp_solve].
  - apply (fp_mono _ _ 0); [lia|].
    repeat match goal with |- footprint _ _ _ (if ?b then _ else _) => destruct b end;
      fp_solve;
      first [ apply quiet_editWithEditor | apply quiet_regenerateWithInstructions
            | apply quiet_rollbackToOriginal ].
Qed.

(** A turn that goes on keeps the snapshot location and the initial draft,
    and either keeps the live draft's location or moves it to a fresh cell. *)
Lemma loop_step_session cfg sb tb jira pc s w s' w' :
  loop_step cfg sb tb jira pc s w = (Ret (Some s'), w') ->
  s_original s' = s_original s /\ s_initial s' = s_initial s /\
  (s_current s' = s_current s \/ w_next w <= s_current s').
Proof.
  intros H. unfold loop_step in H.
  apply bind_inv in H as (choice & w1 & Hm & Hk).
  destruct (showMenu_answer s w choice w1 Hm) as (_ & _ & _ & _ & _ & _ & _ & _ & _ & Hn & _ & _).
  destruct (String.eqb choice "1").
  { apply bind_inv in Hk as (? & ? & _ & Hk). discriminate. }
  destruct (String.eqb choice "2").
  { apply bind_inv in Hk as (s2 & w2 & He & Hk). injection Hk as <- _.
    rewrite (editWithEditor_returns s w1 s2 w2 He). simpl. auto. }
  destruct (String.eqb choice "3").
  { apply bind_inv in Hk as (s2 & w2 & He & Hk). injection Hk as <- _.
    destruct (regenerateWithInstructions_returns cfg sb tb jira s w1 s2 w2 He) as [-> | ->];
      simpl; auto. }
  destruct (String.eqb choice "4").
  { destruct (s_hasChanges s).
    - apply bind_inv in Hk as (s2 & w2 & He & Hk). injection Hk as <- _.
      destruct (rollback_returns_fresh s w1 s2 w2 He) as (-> & -> & ->). rewrite Hn. auto.
    - apply bind_inv in Hk as (? & ? & _ & Hk). apply bind_inv in Hk as (? & ? & _ & Hk).
      discriminate. }
  destruct (String.eqb choice "5").
  { destruct (s_hasChanges s).
    - apply bind_inv in Hk as (? & ? & _ & Hk). apply bind_inv in Hk as (? & ? & _ & Hk).
      discriminate.
    - apply bind_inv in Hk as (? & ? & _ & Hk). injection Hk as <- _. auto. }
  apply bind_inv in Hk as (? & ? & _ & Hk). injection Hk as <- _. auto.
Qed.

Lemma loop_step_snapshot cfg sb tb jira pc snap s w s' w' :
  snapshot_held snap s w ->
  loop_step cfg sb tb jira pc s w = (Ret (Some s'), w') ->
  snapshot_held snap s' w' /\ s_original s' = s_original s.
Proof.
  intros (Hs & Hne & Hlt) H.
  destruct (loop_step_session cfg sb tb jira pc s w s' w' H) as (Ho & _ & Hc).
  destruct (fp_loop_step cfg sb tb jira pc s w) as (_ & _ & _ & Hn & Hh).
  rewrite H in Hn, Hh. simpl in Hn, Hh.
  split; [|exact Ho].
  unfold snapshot_held. rewrite Ho. split; [rewrite Hh; auto|]. split; [|lia].
  destruct Hc as [-> | Hc]; [exact Hne | lia].
Qed.

Lemma loop_reach_snapshot cfg sb tb jira pc snap s0 w0 s w :
  snapshot_held snap s0 w0 ->
  loop_reach cfg sb tb jira pc s0 w0 s w ->
  snapshot_held snap s w /\ s_original s = s_original s0.
Proof.
  intros H0 Hr. induction Hr as [|s w s' w' Hr IH Hstep]; [auto|].
  destruct IH as [Hs Ho]. destruct (loop_step_snapshot _ _ _ _ _ _ _ _ _ _ Hs Hstep) as [Hs' Ho'].
  split; [exact Hs'|congruence].
Qed.

(** C3: from the session started on the freshly generated draft [ini],
    whatever turns the loop takes (edits, regenerations, rollbacks,
    invalid answers), the snapshot cell still holds [ini] and is the same
    cell; a rollback then succeeds and makes the live draft equal to
    [ini] (title and description included), with [hasChanges] false. *)
Theorem C3_rollback_restores_snapshot cfg sb tb jira pc l ini w0 s0 w1 s w :
  w_heap w0 !! l = Some ini ->
  l < w_next w0 ->
  start_session l w0 = (Ret s0, w1) ->
  loop_reach cfg sb tb jira pc s0 w1 s w ->
  w_heap w !! s_original s = Some ini /\ s_original s = s_original s0 /\
  exists s' w',
    rollbackToOriginal s w = (Ret s', w') /\
    w_heap w' !! s_current s' = Some ini /\
    w_heap w' !! s_original s' = Some ini /\
    s_hasChanges s' = false.
Proof.
  intros Hl Hlt Hst Hr.
  rewrite (start_session_run l w0 ini Hl Hlt) in Hst. injection Hst as <- <-.
  assert (H0 : snapshot_held ini (mkSession l (w_next w0) (S (w_next w0)) false)
                 (set_heap w0 (<[S (w_next w0) := ini]> (<[w_next w0 := ini]> (w_heap w0)))
                    (S (S (w_next w0))))).
  { unfold snapshot_held. simpl. rewrite lookup_insert_eq. split; [done|]. split; lia. }
  destruct (loop_reach_snapshot _ _ _ _ _ _ _ _ _ _ H0 Hr) as [(Hs & Hne & Hlt') Ho].
  split; [exact Hs|]. split; [exact Ho|].
  destruct (rollback_run s w ini Hs) as (w' & Hrb & Hh & _).
  eexists _, w'. split; [exact Hrb|]. simpl. rewrite Hh.
  split; [by rewrite lookup_insert_eq|]. split; [|done].
  rewrite lookup_insert_ne by lia. exact Hs.
Qed.

Lemma C3_rollback_restores_snapshot_witness :
  let ini := mkResult "T0" "D0" "ChatGPT" "gpt-4o" in
  let w0 := set_heap (world_pr42 "" ["2"; "Edited"; ""]) {[0 := ini]} 1 in
  let pc := mkPrConfig "acme/app" "ghp_token" None None None in
  let s0 := mkSession 0 1 2 false in
  let w1 := snd (start_session 0 w0) in
  let w := snd (loop_step cfg_demo "feature" "main" "" pc s0 w1) in
  w_heap w0 !! 0 = Some ini /\ 0 < w_next w0 /\ start_session 0 w0 = (Ret s0, w1) /\
  loop_reach cfg_demo "feature" "main" "" pc s0 w1 (with_changes s0 true) w /\
  (w_heap w !! s_original (with_changes s0 true) = Some ini /\
   s_original (with_changes s0 true) = s_original s0 /\
   exists s' w',
     rollbackToOriginal (with_changes s0 true) w = (Ret s', w') /\
     w_heap w' !! s_current s' = Some ini /\
     w_heap w' !! s_original s' = Some ini /\
     s_hasChanges s' = false).
Proof.
  cbv zeta.
  assert (Hreach : loop_reach cfg_demo "feature" "main" ""
            (mkPrConfig "acme/app" "ghp_token" None None None) (mkSession 0 1 2 false)
            (snd (start_session 0 (set_heap (world_pr42 "" ["2"; "Edited"; ""])
                                     {[0 := mkResult "T0" "D0" "ChatGPT" "gpt-4o"]} 1)))
            (with_changes (mkSession 0 1 2 false) true)
            (snd (loop_step cfg_demo "feature" "main" ""
                    (mkPrConfig "acme/app" "ghp_token" None None None) (mkSession 0 1 2 false)
                    (snd (start_session 0 (set_heap (world_pr42 "" ["2"; "Edited"; ""])
                                             {[0 := mkResult "T0" "D0" "ChatGPT" "gpt-4o"]} 1)))))).
  { eapply loop_reach_turn; [apply loop_reach_start|]. vm_compute. reflexivity. }
  split; [reflexivity|]. split; [simpl; lia|]. split; [vm_compute; reflexivity|].
  split; [exact Hreach|].
  eapply (C3_rollback_restores_snapshot _ _ _ _ _ 0 _
            (set_heap (world_pr42 "" ["2"; "Edited"; ""])
               {[0 := mkResult "T0" "D0" "ChatGPT" "gpt-4o"]} 1)
            (mkSession 0 1 2 false));
    [reflexivity | simpl; lia | vm_compute; reflexivity | exact Hreach].
Defined.

(** * Further properties of the code *)

(** ** Splitting on a separator and joining back *)

Lemma split_on_nonnil sep s : split_on sep s <> [].
Proof.
  destruct s as [|c s]; simpl; [discriminate|].
  destruct (Ascii.eqb c sep); [discriminate|]. destruct (split_on sep s); discriminate.
Qed.

Lemma split_on_app sep a b : split_on sep (a +:+ String sep b) = split_on sep a ++ split_on sep b.
Proof.
  induction a as [|c a IH].
  - rewrite str_app_nil_l. simpl. rewrite Ascii.eqb_refl. reflexivity.
  - rewrite str_app_cons. simpl. rewrite IH. destruct (Ascii.eqb c sep); [reflexivity|].
    destruct (split_on sep a) as [|x xs] eqn:E; [exfalso; exact (split_on_nonnil sep a E)|].
    reflexivity.
Qed.

Lemma split_on_no_sep sep s : has_char sep s = false -> split_on sep s = [s].
Proof.
  induction s as [|c s IH]; simpl; [reflexivity|].
  intros H. apply orb_false_iff in H as [Hc Hs]. rewrite Hc, IH by exact Hs. reflexivity.
Qed.

Lemma join_cons_head sep c y ys : join sep (String c y :: ys) = String c (join sep (y :: ys)).
Proof. destruct ys; reflexivity. Qed.

Lemma join_nil_head sep y ys : join sep (EmptyString :: y :: ys) = sep +:+ join sep (y :: ys).
Proof. reflexivity. Qed.

(** [s.split(sep).join(sep)] gives [s] back. *)
Lemma join_split sep s : join (String sep EmptyString) (split_on sep s) = s.
Proof.
  induction s as [|c s IH]; [reflexivity|]. cbn [split_on].
  destruct (Ascii.eqb_spec c sep) as [->|Hne].
  - destruct (split_on sep s) as [|y ys] eqn:E; [exfalso; exact (split_on_nonnil sep s E)|].
    rewrite join_nil_head, IH. reflexivity.
  - destruct (split_on sep s) as [|y ys] eqn:E; [exfalso; exact (split_on_nonnil sep s E)|].
    rewrite join_cons_head, IH. reflexivity.
Qed.

Lemma split_on_parts sep s : Forall (fun x => has_char sep x = false) (split_on sep s).
Proof.
  induction s as [|c s IH]; simpl; [constructor; [reflexivity | constructor]|].
  destruct (Ascii.eqb c sep) eqn:Hc; [constructor; [reflexivity | exact IH]|].
  destruct (split_on sep s) as [|y ys] eqn:E; [exfalso; exact (split_on_nonnil sep s E)|].
  inversion IH as [|? ? Hy Hys]; subst. constructor; [simpl; rewrite Hc, Hy; reflexivity | exact Hys].
Qed.

(** ** Trimming *)

Lemma trim_start_app x y :
  trim_start (x +:+ y) = match trim_start x with EmptyString => trim_start y | _ => trim_start x +:+ y end.
Proof.
  induction x as [|c x IH]; [reflexivity|]. rewrite str_app_cons. simpl.
  destruct (is_ws c); [exact IH | reflexivity].
Qed.

Lemma trim_end_snoc_ws y c : is_ws c = true -> trim_end (y +:+ String c EmptyString) = trim_end y.
Proof.
  intros Hc. unfold trim_end. rewrite rev_str_app. simpl. rewrite Hc. reflexivity.
Qed.

Lemma trim_snoc_ws x c : is_ws c = true -> trim (x +:+ String c EmptyString) = trim x.
Proof.
  intros Hc. unfold trim. rewrite trim_start_app.
  destruct (trim_start x) as [|d u] eqn:E.
  - simpl. rewrite Hc. reflexivity.
  - rewrite <- E. apply trim_end_snoc_ws, Hc.
Qed.

Lemma trim_cons_ws x c : is_ws c = true -> trim (String c x) = trim x.
Proof. intros Hc. unfold trim. simpl. rewrite Hc. reflexivity. Qed.

Lemma has_char_rev c s acc : has_char c (rev_str s acc) = has_char c s || has_char c acc.
Proof.
  revert acc. induction s as [|d s IH]; intros acc; simpl; [reflexivity|].
  rewrite IH. simpl. destruct (Ascii.eqb d c), (has_char c s), (has_char c acc); reflexivity.
Qed.

Lemma has_char_trim_start c s : has_char c s = false -> has_char c (trim_start s) = false.
Proof.
  induction s as [|d s IH]; simpl; [reflexivity|].
  intros H. apply orb_false_iff in H as [Hd Hs].
  destruct (is_ws d); [exact (IH Hs)|]. simpl. rewrite Hd, Hs. reflexivity.
Qed.

Lemma has_char_trim c s : has_char c s = false -> has_char c (trim s) = false.
Proof.
  intros H. unfold trim, trim_end. rewrite has_char_rev. simpl. rewrite orb_false_r.
  apply has_char_trim_start. rewrite has_char_rev. simpl. rewrite orb_false_r.
  apply has_char_trim_start, H.
Qed.

Lemma is_ws_nl : is_ws nl = true.
Proof. reflexivity. Qed.

Lemma join_split_nl s : join nl_s (split_on nl s) = s.
Proof. apply join_split. Qed.

Lemma trim_nl_head x : trim (nl_s +:+ x) = trim x.
Proof. unfold nl_s. rewrite str_app_cons, str_app_nil_l. apply trim_cons_ws, is_ws_nl. Qed.

(** The lines of the buffer [editPullRequestContent] writes. *)
Lemma split_editor_buffer title description :
  has_char nl title = false ->
  split_on nl (editor_buffer title description)
  = [title; EmptyString; "---"; EmptyString] ++ split_on nl description.
Proof.
  intros Ht. unfold editor_buffer, nl_s.
  rewrite !str_app_cons, !str_app_nil_l.
  rewrite split_on_app, (split_on_no_sep _ _ Ht). reflexivity.
Qed.

(** [editPullRequestContent] once the editor has returned [edited]. *)
Lemma editPullRequestContent_run title description w edited rest :
  truthy (w_editorCommand w) = true ->
  w_editor_out w = Some edited :: rest ->
  fst (editPullRequestContent title description w)
  = Ret (match find_separator 0 (split_on nl edited) with
         | Some i =>
             (trim (join nl_s (take i (split_on nl edited))),
              trim (join nl_s (drop (S i) (split_on nl edited))))
         | None =>
             (or_str (hd EmptyString (split_on nl edited)) title,
              or_str (trim (join nl_s (tl (split_on nl edited)))) description)
         end).
Proof.
  intros Hc Ho.
  unfold editPullRequestContent, openInEditor, getEditorCommand, executeEditor, bind, ret, throw.
  simpl. rewrite Hc. simpl. rewrite Ho. simpl.
  destruct (find_separator 0 (split_on nl edited)); reflexivity.
Qed.

(** X1: saving the editor buffer untouched gives back the trimmed title
    and description. *)
Theorem editPullRequestContent_unchanged_round_trip title description w rest :
  truthy (w_editorCommand w) = true ->
  w_editor_out w = Some (editor_buffer title description) :: rest ->
  has_char nl title = false ->
  String.eqb (trim title) "---" = false ->
  fst (editPullRequestContent title description w) = Ret (trim title, trim description).
Proof.
  intros Hc Ho Hnl Hsep.
  rewrite (editPullRequestContent_run _ _ _ _ _ Hc Ho), (split_editor_buffer _ _ Hnl).
  simpl. rewrite Hsep. simpl.
  destruct (split_on nl description) as [|y ys] eqn:E; [exfalso; exact (split_on_nonnil _ _ E)|].
  rewrite str_app_nil_l, str_app_nil_r. unfold nl_s.
  rewrite str_app_cons, str_app_nil_l, (trim_cons_ws _ _ is_ws_nl), <- E, join_split.
  rewrite (trim_snoc_ws _ _ is_ws_nl). reflexivity.
Qed.

Lemma editPullRequestContent_unchanged_round_trip_witness :
  truthy (w_editorCommand (world_pr42 "vim" [])) = true /\
  has_char nl " Fix parser " = false /\
  String.eqb (trim " Fix parser ") "---" = false /\
  fst (editPullRequestContent " Fix parser " "Body  "
         (set_editor_out (world_pr42 "vim" []) [Some (editor_buffer " Fix parser " "Body  ")]))
  = Ret (trim " Fix parser ", trim "Body  ").
Proof.
  split; [reflexivity|]. split; [reflexivity|]. split; [reflexivity|].
  apply (editPullRequestContent_unchanged_round_trip _ _ _ []); reflexivity.
Defined.

(** X2: a title whose trimmed text is "---" is taken for the separator:
    saving the buffer untouched empties the title and moves a "---" line
    to the head of the description. *)
Theorem editPullRequestContent_dash_title_lost title description w rest :
  truthy (w_editorCommand w) = true ->
  w_editor_out w = Some (editor_buffer title description) :: rest ->
  has_char nl title = false ->
  String.eqb (trim title) "---" = true ->
  fst (editPullRequestContent title description w)
  = Ret (EmptyString, trim ("---" +:+ nl_s +:+ nl_s +:+ description)).
Proof.
  intros Hc Ho Hnl Hsep.
  rewrite (editPullRequestContent_run _ _ _ _ _ Hc Ho), (split_editor_buffer _ _ Hnl).
  simpl. rewrite Hsep. simpl.
  destruct (split_on nl description) as [|y ys] eqn:E; [exfalso; exact (split_on_nonnil _ _ E)|].
  rewrite <- E, join_split_nl, !str_app_nil_l, trim_nl_head. reflexivity.
Qed.

Lemma editPullRequestContent_dash_title_lost_witness :
  truthy (w_editorCommand (world_pr42 "vim" [])) = true /\
  has_char nl " --- " = false /\
  String.eqb (trim " --- ") "---" = true /\
  fst (editPullRequestContent " --- " "Body"
         (set_editor_out (world_pr42 "vim" []) [Some (editor_buffer " --- " "Body")]))
  = Ret (EmptyString, trim ("---" +:+ nl_s +:+ nl_s +:+ "Body")).
Proof.
  split; [reflexivity|]. split; [reflexivity|]. split; [reflexivity|].
  apply (editPullRequestContent_dash_title_lost _ _ _ []); reflexivity.
Defined.

(** ** The instructions template *)

Lemma templateContent_split u :
  split_on nl (templateContent +:+ u)
  = split_on nl (join nl_s
      [ "# Additional Instructions for Merge Request Generation";
        "# ";
        "# Lines starting with '#' are comments and will be ignored.";
        "# Add any additional instructions below to customize the merge request.";
        "# If you don't need any additional instructions, save and close this file.";
        "#";
        "# Examples:";
        "# - Focus on security aspects";
        "# - Emphasize performance improvements";
        "# - Mention specific testing requirements";
        "# - Add context about architectural decisions";
        "#";
        "# Your instructions:" ]) ++ EmptyString :: split_on nl u.
Proof.
  match goal with |- context [split_on nl (join nl_s ?xs)] =>
    transitivity (split_on nl (join nl_s xs +:+ String nl (String nl u)))
  end.
  - f_equal; reflexivity.
  - rewrite split_on_app. reflexivity.
Qed.

(** X3: the template adds nothing to the instructions: whatever the user
    writes into the buffer after it yields the same instructions as that
    text alone, and the template saved untouched yields none. *)
Theorem instructions_of_template u :
  instructions_of (templateContent +:+ u) = instructions_of u /\
  instructions_of templateContent = EmptyString.
Proof.
  split; [|reflexivity].
  unfold instructions_of. rewrite templateContent_split, List.filter_app.
  change (trim (join nl_s (EmptyString ::
            List.filter (fun line => negb (starts_with "#" (trim line))) (split_on nl u)))
          = trim (join nl_s
            (List.filter (fun line => negb (starts_with "#" (trim line))) (split_on nl u)))).
  destruct (List.filter _ (split_on nl u)) as [|y ys]; [reflexivity|].
  rewrite join_nil_head. apply trim_nl_head.
Qed.

(** ** The generated result *)

Lemma has_char_hd_split c s : has_char c (hd EmptyString (split_on c s)) = false.
Proof.
  pose proof (split_on_parts c s) as H.
  destruct (split_on c s) as [|y ys]; [reflexivity|]. inversion H; assumption.
Qed.

(** X4: a generation that succeeds stores one fresh object at the next
    free location, leaves every other heap cell as it was, and its title
    is a single line. *)
Theorem generateMergeRequest_fresh_one_line_title cfg c w l w' :
  generateMergeRequest cfg c w = (Ret l, w') ->
  l = w_next w /\ w_next w' = S l /\
  exists r, w_heap w' = <[l := r]> (w_heap w) /\ has_char nl (r_title r) = false.
Proof.
  unfold generateMergeRequest, call_ai, throw, alloc, bind. simpl.
  destruct (_ || _ || _); [|discriminate].
  destruct (negb (truthy (cfg_openaiToken cfg))); [discriminate|].
  destruct (w_ai_out w) as [|[reply|] rest]; simpl; try discriminate.
  intros [= <- <-]. simpl. split; [reflexivity|]. split; [reflexivity|].
  eexists. split; [reflexivity|]. simpl.
  apply has_char_trim, has_char_hd_split.
Qed.

Lemma generateMergeRequest_fresh_one_line_title_witness :
  let w := set_ai_out (world_pr42 "" []) [Some ("  Title  " +:+ nl_s +:+ "Body")] in
  generateMergeRequest cfg_demo (mkGenCall "feature" "main" "" "ChatGPT" None None) w
    = (Ret 0, snd (generateMergeRequest cfg_demo (mkGenCall "feature" "main" "" "ChatGPT" None None) w)) /\
  0 = w_next w /\
  w_next (snd (generateMergeRequest cfg_demo (mkGenCall "feature" "main" "" "ChatGPT" None None) w))
    = S 0 /\
  exists r, w_heap (snd (generateMergeRequest cfg_demo (mkGenCall "feature" "main" "" "ChatGPT" None None) w))
              = <[0 := r]> (w_heap w) /\ has_char nl (r_title r) = false.
Proof.
  cbv zeta. split; [reflexivity|].
  apply (generateMergeRequest_fresh_one_line_title cfg_demo
           (mkGenCall "feature" "main" "" "ChatGPT" None None) _ 0 _). reflexivity.
Defined.

(** X5: the seeded regeneration opens the editor before the model and the
    token are checked: with an unsupported model or no OpenAI token the
    user still edits the instructions, then the call fails with no request
    to the AI backend and nothing allocated. *)
Theorem regenerateMergeRequest_editor_before_checks cfg sb tb jira prev model w buf rest :
  truthy (w_editorCommand w) = true ->
  w_editor_out w = Some buf :: rest ->
  supported_model model = false \/ truthy (cfg_openaiToken cfg) = false ->
  exists e w',
    regenerateMergeRequest cfg sb tb jira prev model w = (Throw e, w') /\
    w_trace w' = ev_error ("❌ Error during regeneration: " +:+ e)
                 :: ev_log "🔄 Regenerating with additional instructions..."
                 :: ev_editor templateContent
                 :: ev_log "🚀 Opening editor for additional instructions..." :: w_trace w /\
    w_heap w' = w_heap w /\ w_next w' = w_next w /\ w_ai_out w' = w_ai_out w /\
    w_editor_out w' = rest.
Proof.
  intros Hc Ho Hm.
  unfold regenerateMergeRequest, openInEditor, getEditorCommand, executeEditor,
    generateMergeRequest, try_catch, log, log_error, emit, throw, bind.
  simpl. rewrite Hc. simpl. rewrite Ho. simpl.
  unfold supported_model in Hm.
  destruct (String.eqb (to_lower model) "chatgpt" || String.eqb (to_lower model) "openai"
            || String.eqb (to_lower model) "gpt") eqn:Es; simpl.
  - destruct Hm as [Hm | Hm]; [discriminate|]. rewrite Hm. simpl.
    eexists _, _. split; [reflexivity|]. repeat split.
  - eexists _, _. split; [reflexivity|]. repeat split.
Qed.

Lemma regenerateMergeRequest_editor_before_checks_witness :
  let w := world_pr42 "vim" [] in
  truthy (w_editorCommand w) = true /\
  w_editor_out w = Some ("# comment" +:+ nl_s +:+ "Focus on perf" +:+ nl_s) :: [] /\
  (supported_model "Claude" = false \/ truthy (cfg_openaiToken cfg_demo) = false) /\
  exists e w',
    regenerateMergeRequest cfg_demo "feature" "main" "" ("Old", "Old body") "Claude" w = (Throw e, w') /\
    w_trace w' = ev_error ("❌ Error during regeneration: " +:+ e)
                 :: ev_log "🔄 Regenerating with additional instructions..."
                 :: ev_editor templateContent
                 :: ev_log "🚀 Opening editor for additional instructions..." :: w_trace w /\
    w_heap w' = w_heap w /\ w_next w' = w_next w /\ w_ai_out w' = w_ai_out w /\
    w_editor_out w' = [].
Proof.
  cbv zeta. split; [reflexivity|]. split; [reflexivity|]. split; [left; reflexivity|].
  apply (regenerateMergeRequest_editor_before_checks cfg_demo _ _ _ _ _ _
           ("# comment" +:+ nl_s +:+ "Focus on perf" +:+ nl_s)); [reflexivity | reflexivity | left; reflexivity].
Defined.


(** ** Runs that send no update request *)

Lemma count_mono (f g : event -> nat) d : (forall e, g e <= f e) -> count g d <= count f d.
Proof. intros H. induction d as [|e d IH]; simpl; [lia|]. specialize (H e). lia. Qed.

Lemma fp_weaken {A} c (f g : event -> nat) n (m : M A) :
  (forall e, g e <= f e) -> footprint c f n m -> footprint c g n m.
Proof.
  intros Hfg Hm w. destruct (Hm w) as (d & Ht & Hc & Hn & Hh). exists d.
  repeat split; auto. pose proof (count_mono f g d Hfg). lia.
Qed.

Lemma patch_le_mut e : patch_of e <= mut_of e.
Proof. destruct e; simpl; lia. Qed.

Lemma fp_patch_of_mut {A} c n (m : M A) : footprint c mut_of n m -> footprint c patch_of n m.
Proof. apply fp_weaken, patch_le_mut. Qed.

(** [silent_at f m w]: run from [w], [m] appends no event of positive
    [f]-weight; [silent f m]: from every world. *)
Definition silent_at {A} (f : event -> nat) (m : M A) (w : world) : Prop :=
  exists d, w_trace (snd (m w)) = d ++ w_trace w /\ count f d = 0.

Definition silent {A} (f : event -> nat) (m : M A) : Prop := forall w, silent_at f m w.

Lemma silent_fp {A} c f (m : M A) : footprint c f 0 m -> silent f m.
Proof. intros Hm w. destruct (Hm w) as (d & Ht & Hc & _). exists d. split; [exact Ht | lia]. Qed.

Lemma silent_at_bind_ret {A B} f (m : M A) (k : A -> M B) w a w1 :
  m w = (Ret a, w1) -> silent_at f m w -> silent_at f (k a) w1 -> silent_at f (bind m k) w.
Proof.
  intros Hm (d1 & Ht1 & Hc1) (d2 & Ht2 & Hc2). unfold silent_at, bind. rewrite Hm in *. simpl in Ht1 |- *.
  exists (d2 ++ d1). rewrite Ht2, Ht1, app_assoc, count_app. split; [done | lia].
Qed.

Lemma silent_bind {A B} f (m : M A) (k : A -> M B) :
  silent f m -> (forall a, silent f (k a)) -> silent f (bind m k).
Proof.
  intros Hm Hk w. destruct (Hm w) as (d1 & Ht1 & Hc1). unfold silent_at, bind.
  destruct (m w) as [[a|e|code|] w1] eqn:E; simpl in Ht1; try (exists d1; split; assumption).
  destruct (Hk a w1) as (d2 & Ht2 & Hc2).
  exists (d2 ++ d1). rewrite Ht2, Ht1, app_assoc, count_app. split; [done | lia].
Qed.

Lemma silent_at_try {A} f (m : M A) h w :
  silent_at f m w -> (forall e, silent f (h e)) -> silent_at f (try_catch m h) w.
Proof.
  intros (d1 & Ht1 & Hc1) Hh. unfold silent_at, try_catch.
  destruct (m w) as [[a|e|code|] w1] eqn:E; simpl in Ht1; try (exists d1; split; assumption).
  destruct (Hh e w1) as (d2 & Ht2 & Hc2).
  exists (d2 ++ d1). rewrite Ht2, Ht1, app_assoc, count_app. split; [done | lia].
Qed.

Lemma silent_try {A} f (m : M A) h :
  silent f m -> (forall e, silent f (h e)) -> silent f (try_catch m h).
Proof. intros Hm Hh w. apply silent_at_try; auto. Qed.

(** A save with no open pull request creates one: it sends no update. *)
Lemma save_no_patch c sb tb pc s :
  pc_existingPR pc = None -> footprint c patch_of 0 (saveMergeRequest sb tb pc s).
Proof.
  intros Hn. unfold saveMergeRequest, createOrUpdatePullRequest. rewrite Hn. cbn [a_existingPR].
  fp_solve. apply fp_http_send. reflexivity.
Qed.

Ltac silent_solve :=
  repeat match goal with
  | |- silent _ (bind _ _) => apply silent_bind; [|intro]
  | |- silent _ (try_catch _ _) => apply silent_try; [|intro]
  | |- silent _ (if ?b then _ else _) => destruct b
  | |- silent _ (match ?x with _ => _ end) => destruct x
  | |- silent _ (editWithEditor ?s) =>
      apply (silent_fp (s_current s)), fp_patch_of_mut, quiet_editWithEditor
  | |- silent _ (regenerateWithInstructions _ _ _ _ ?s) =>
      apply (silent_fp (s_current s)), fp_patch_of_mut, quiet_regenerateWithInstructions
  | |- silent _ (rollbackToOriginal _) =>
      apply (silent_fp 0), fp_patch_of_mut, quiet_rollbackToOriginal
  | |- silent _ (showMenu _) => apply (silent_fp 0), fp_patch_of_mut, quiet_showMenu
  | |- silent _ (generateMergeRequestSafe _ _ _ _ _) =>
      apply (silent_fp 0), fp_patch_of_mut, quiet_generateMergeRequestSafe
  | |- silent _ (saveMergeRequest _ _ _ _) => apply (silent_fp 0), save_no_patch; assumption
  | |- silent _ _ => apply (silent_fp 0); solve [fp_solve]
  end.

Lemma loop_step_no_patch cfg sb tb jira pc s :
  pc_existingPR pc = None -> silent patch_of (loop_step cfg sb tb jira pc s).
Proof. intros Hn. unfold loop_step. silent_solve. Qed.

Lemma interaction_loop_no_patch cfg sb tb jira pc fuel s :
  pc_existingPR pc = None -> silent patch_of (interaction_loop cfg sb tb jira pc fuel s).
Proof.
  intros Hn. revert s. induction fuel as [|fuel IH]; intros s; simpl.
  - apply (silent_fp 0). fp_solve.
  - apply silent_bind; [apply loop_step_no_patch, Hn|].
    intros [s'|]; [apply IH | apply (silent_fp 0); fp_solve].
Qed.

Lemma handleUserInteraction_no_patch cfg sb tb jira pc fuel l :
  pc_existingPR pc = None -> silent patch_of (handleUserInteraction cfg sb tb jira pc fuel l).
Proof.
  intros Hn. unfold handleUserInteraction. apply silent_bind.
  - apply (silent_fp 0). unfold start_session. fp_solve.
  - intros s. apply interaction_loop_no_patch, Hn.
Qed.

Lemma findExistingPullRequest_none_silent {B} f repo sb tb (k : option pull -> M B) w :
  w_lookup w = None \/ w_lookup w = Some [] ->
  f (ev_get (api +:+ repo +:+ "/pulls?state=open&head=" +:+ sb +:+ "&base=" +:+ tb)) = 0 ->
  f (ev_error "Warning: Could not check for existing pull requests: request failed") = 0 ->
  silent f (k None) ->
  silent_at f (bind (findExistingPullRequest repo sb tb) k) w.
Proof.
  intros Hl Hg He Hk. unfold silent_at, findExistingPullRequest, bind, emit. simpl.
  destruct Hl as [Hl | Hl]; rewrite Hl; simpl.
  - match goal with |- context [k None ?w1] => destruct (Hk w1) as (d & Ht & Hc) end.
    exists (d ++ [ev_error "Warning: Could not check for existing pull requests: request failed";
                  ev_get (api +:+ repo +:+ "/pulls?state=open&head=" +:+ sb +:+ "&base=" +:+ tb)]).
    simpl. rewrite Ht, <- app_assoc, count_app. simpl. rewrite Hg, He. split; [done | lia].
  - match goal with |- context [k None ?w1] => destruct (Hk w1) as (d & Ht & Hc) end.
    exists (d ++ [ev_get (api +:+ repo +:+ "/pulls?state=open&head=" +:+ sb +:+ "&base=" +:+ tb)]).
    simpl. rewrite Ht, <- app_assoc, count_app. simpl. rewrite Hg. split; [done | lia].
Qed.

(** X7: when the lookup of an open pull request fails or finds none, the
    run never sends an update (PATCH) request: the only request a save can
    send is a create (POST). *)
Theorem executePRWorkflow_no_patch_without_open_pr fuel sb tb jira cfg repo rsb rtb rname w :
  w_lookup w = None \/ w_lookup w = Some [] ->
  exists d,
    w_trace (snd (executePRWorkflow fuel sb tb jira cfg repo rsb rtb rname w)) = d ++ w_trace w /\
    count patch_of d = 0.
Proof.
  intros Hl. unfold executePRWorkflow. cbv zeta.
  apply silent_at_try; [|intro; apply (silent_fp 0); fp_solve].
  eapply silent_at_bind_ret; [reflexivity | apply (silent_fp 0); fp_solve |].
  cbv beta. apply findExistingPullRequest_none_silent; [exact Hl | reflexivity | reflexivity |].
  cbv beta iota. silent_solve. apply handleUserInteraction_no_patch. reflexivity.
Qed.

Lemma executePRWorkflow_no_patch_without_open_pr_witness :
  let w := mkWorld ["1"] "" [] [Some ("T" +:+ nl_s +:+ "B")] None
             [http_ok "https://github.com/acme/app/pull/43"] ∅ 0 [] in
  (w_lookup w = None \/ w_lookup w = Some []) /\
  exists d,
    w_trace (snd (executePRWorkflow 3 "feature" "main" "" cfg_demo "acme/app" None None
                    (Some "origin") w)) = d ++ w_trace w /\
    count patch_of d = 0.
Proof.
  cbv zeta. split; [left; reflexivity|].
  apply executePRWorkflow_no_patch_without_open_pr. left. reflexivity.
Defined.

(** ** No error escapes the interaction loop *)

(** [grows m]: [m] keeps every handed-out location allocated and never
    lowers the allocation counter. *)
Definition grows {A} (m : M A) : Prop :=
  forall w, heap_ok w -> heap_ok (snd (m w)) /\ w_next w <= w_next (snd (m w)).

(** [no_throw n m]: run in a world where the locations below [n] are
    allocated, [m] does not end by throwing. *)
Definition no_throw {A} (n : nat) (m : M A) : Prop :=
  forall w, heap_ok w -> n <= w_next w -> forall e, fst (m w) <> Throw e.

Lemma gr_same {A} (m : M A) :
  (forall w, w_heap (snd (m w)) = w_heap w /\ w_next (snd (m w)) = w_next w) -> grows m.
Proof.
  intros H w Hok. destruct (H w) as [Hh Hn]. split; [|lia].
  intros l Hl. rewrite Hh. apply Hok. lia.
Qed.

Lemma gr_bind {A B} (m : M A) (k : A -> M B) :
  grows m -> (forall a, grows (k a)) -> grows (bind m k).
Proof.
  intros Hm Hk w Hok. unfold bind. destruct (Hm w Hok) as [Hok1 Hn1].
  destruct (m w) as [[a|e|code|] w1]; simpl in *; try (split; assumption).
  destruct (Hk a w1 Hok1) as [Hok2 Hn2]. split; [exact Hok2 | lia].
Qed.

Lemma gr_try {A} (m : M A) h : grows m -> (forall e, grows (h e)) -> grows (try_catch m h).
Proof.
  intros Hm Hh w Hok. unfold try_catch. destruct (Hm w Hok) as [Hok1 Hn1].
  destruct (m w) as [[a|e|code|] w1]; simpl in *; try (split; assumption).
  destruct (Hh e w1 Hok1) as [Hok2 Hn2]. split; [exact Hok2 | lia].
Qed.

Lemma gr_store l r : grows (store l r).
Proof.
  intros w Hok. unfold heap_ok in *. simpl. split; [|lia]. intros l' Hl'.
  destruct (decide (l' = l)) as [->|Hne]; [rewrite lookup_insert_eq; eauto|].
  rewrite lookup_insert_ne by congruence. apply Hok, Hl'.
Qed.

Lemma gr_alloc r : grows (alloc r).
Proof.
  intros w Hok. unfold heap_ok in *. simpl. split; [|lia]. intros l' Hl'.
  destruct (decide (l' = w_next w)) as [->|Hne]; [rewrite lookup_insert_eq; eauto|].
  rewrite lookup_insert_ne by congruence. apply Hok. lia.
Qed.

Lemma gr_executeEditor content : grows (executeEditor content).
Proof.
  apply gr_same. intros w. unfold executeEditor.
  destruct (w_editor_out w) as [|[t|] rest]; split; reflexivity.
Qed.

Lemma gr_call_ai g : grows (call_ai g).
Proof.
  apply gr_same. intros w. unfold call_ai.
  destruct (w_ai_out w) as [|[t|] rest]; split; reflexivity.
Qed.

Lemma gr_http_send e : grows (http_send e).
Proof.
  apply gr_same. intros w. unfold http_send, bind, emit. simpl.
  destruct (w_http_out w) as [|[u|t] rest]; split; reflexivity.
Qed.

Lemma gr_question p : grows (question p).
Proof. apply gr_same. intros w. unfold question. destruct (w_inputs w); split; reflexivity. Qed.

Lemma gr_load l : grows (load l).
Proof. apply gr_same. intros w. unfold load. destruct (w_heap w !! l); split; reflexivity. Qed.

Ltac gr_solve :=
  repeat match goal with
  | |- grows (bind _ _) => apply gr_bind; [|intro]
  | |- grows (try_catch _ _) => apply gr_try; [|intro]
  | |- grows (store _ _) => apply gr_store
  | |- grows (alloc _) => apply gr_alloc
  | |- grows (load _) => apply gr_load
  | |- grows (question _) => apply gr_question
  | |- grows (executeEditor _) => apply gr_executeEditor
  | |- grows (call_ai _) => apply gr_call_ai
  | |- grows (http_send _) => apply gr_http_send
  | |- grows (rollbackToOriginal _) => unfold rollbackToOriginal, showCurrentResult, log
  | |- grows (if ?b then _ else _) => destruct b
  | |- grows (let '(_, _) := ?p in _) => destruct p
  | |- grows (match ?x with _ => _ end) => destruct x
  | |- grows _ => apply gr_same; intros ?w; split; reflexivity
  end.

Lemma nt_same {A} n (m : M A) : (forall w e, fst (m w) <> Throw e) -> no_throw n m.
Proof. intros H w _ _. apply H. Qed.

Lemma nt_bind {A B} n (m : M A) (k : A -> M B) :
  no_throw n m -> grows m -> (forall a, no_throw n (k a)) -> no_throw n (bind m k).
Proof.
  intros Hm Hg Hk w Hok Hn e. unfold bind.
  pose proof (Hm w Hok Hn) as Hm'. destruct (Hg w Hok) as [Hok1 Hn1].
  destruct (m w) as [[a|e'|code|] w1]; simpl in *; try discriminate.
  - apply Hk; [exact Hok1 | lia].
  - exfalso. exact (Hm' e' eq_refl).
Qed.

Lemma nt_try {A} n (m : M A) h :
  grows m -> (forall e, no_throw n (h e)) -> no_throw n (try_catch m h).
Proof.
  intros Hg Hh w Hok Hn e. unfold try_catch. destruct (Hg w Hok) as [Hok1 Hn1].
  destruct (m w) as [[a|e'|code|] w1]; simpl in *; try discriminate.
  apply Hh; [exact Hok1 | lia].
Qed.

Lemma nt_load n l : l < n -> no_throw n (load l).
Proof.
  intros Hl w Hok Hn e. unfold load. destruct (Hok l) as [r Hr]; [lia|]. rewrite Hr. discriminate.
Qed.

Lemma nt_question n p : no_throw n (question p).
Proof. apply nt_same. intros w e. unfold question. destruct (w_inputs w); discriminate. Qed.

(** A rollback reads only the snapshot cell. *)
Lemma nt_rollback n s : s_original s < n -> no_throw n (rollbackToOriginal s).
Proof.
  intros Ho w Hok Hn e. destruct (Hok (s_original s)) as [o Hso]; [lia|].
  destruct (rollback_run s w o Hso) as (w' & Hr & _). rewrite Hr. discriminate.
Qed.

Ltac nt_solve :=
  repeat match goal with
  | |- no_throw _ (bind _ _) => apply nt_bind; [| solve [gr_solve] | intro]
  | |- no_throw _ (try_catch _ _) => apply nt_try; [solve [gr_solve] | intro]
  | |- no_throw _ (load _) => apply nt_load; simpl; lia
  | |- no_throw _ (question _) => apply nt_question
  | |- no_throw _ (rollbackToOriginal _) => apply nt_rollback; lia
  | |- no_throw _ (if ?b then _ else _) => destruct b
  | |- no_throw _ (match ?x with _ => _ end) => destruct x
  | |- no_throw _ _ => apply nt_same; intros ?w ?e; discriminate
  end.

Lemma grows_loop_step cfg sb tb jira pc s : grows (loop_step cfg sb tb jira pc s).
Proof.
  unfold loop_step, editWithEditor, regenerateWithInstructions, rollbackToOriginal,
    saveMergeRequest, createOrUpdatePullRequest, editManually, editPullRequestContent,
    regenerateMergeRequest, openInEditor, getEditorCommand, generateMergeRequest,
    showCurrentResult, showMenu, set_title, set_description, log, log_error, rl_close.
  cbv zeta. gr_solve.
Qed.

Lemma loop_step_no_throw cfg sb tb jira pc s :
  no_throw (S (Nat.max (s_current s) (s_original s))) (loop_step cfg sb tb jira pc s).
Proof.
  unfold loop_step, editWithEditor, regenerateWithInstructions, saveMergeRequest,
    createOrUpdatePullRequest, editManually, editPullRequestContent, regenerateMergeRequest,
    openInEditor, getEditorCommand, generateMergeRequest, showCurrentResult, showMenu,
    set_title, set_description, log, log_error, rl_close.
  cbv zeta. nt_solve.
Qed.

Lemma rollback_fresh_lt s w s' w' :
  rollbackToOriginal s w = (Ret s', w') -> s_current s' < w_next w'.
Proof.
  destruct (w_heap w !! s_original s) as [o|] eqn:Ho.
  - destruct (rollback_run s w o Ho) as (w1 & Hr & _ & Hn). rewrite Hr.
    intros [= <- <-]. simpl. lia.
  - unfold rollbackToOriginal, load, bind. rewrite Ho. discriminate.
Qed.

(** A turn that goes on leaves the live draft and the snapshot at handed-out
    locations. *)
Lemma loop_step_cells cfg sb tb jira pc s w s' w' :
  loop_step cfg sb tb jira pc s w = (Ret (Some s'), w') ->
  s_current s < w_next w -> s_original s < w_next w ->
  s_current s' < w_next w' /\ s_original s' < w_next w'.
Proof.
  intros H Hc Ho.
  destruct (loop_step_session cfg sb tb jira pc s w s' w' H) as (Hso & _ & _).
  destruct (fp_loop_step cfg sb tb jira pc s w) as (_ & _ & _ & Hn & _).
  rewrite H in Hn. simpl in Hn. rewrite Hso. split; [|lia].
  unfold loop_step in H. apply bind_inv in H as (choice & w1 & Hm & Hk).
  destruct (String.eqb choice "1").
  { apply bind_inv in Hk as (? & ? & _ & Hk). discriminate. }
  destruct (String.eqb choice "2").
  { apply bind_inv in Hk as (s2 & w2 & He & Hk). injection Hk as <- <-.
    rewrite (editWithEditor_returns s w1 s2 w2 He). simpl. lia. }
  destruct (String.eqb choice "3").
  { apply bind_inv in Hk as (s2 & w2 & He & Hk). injection Hk as <- <-.
    destruct (regenerateWithInstructions_returns cfg sb tb jira s w1 s2 w2 He) as [-> | ->];
      simpl; lia. }
  destruct (String.eqb choice "4").
  { destruct (s_hasChanges s).
    - apply bind_inv in Hk as (s2 & w2 & He & Hk). injection Hk as <- <-.
      exact (rollback_fresh_lt s w1 s2 w2 He).
    - apply bind_inv in Hk as (? & ? & _ & Hk). apply bind_inv in Hk as (? & ? & _ & Hk).
      discriminate. }
  destruct (String.eqb choice "5").
  { destruct (s_hasChanges s).
    - apply bind_inv in Hk as (? & ? & _ & Hk). apply bind_inv in Hk as (? & ? & _ & Hk).
      discriminate.
    - apply bind_inv in Hk as (? & ? & _ & Hk). injection Hk as <- <-. lia. }
  apply bind_inv in Hk as (? & ? & _ & Hk). injection Hk as <- <-. lia.
Qed.

Lemma interaction_loop_no_throw cfg sb tb jira pc fuel s w :
  heap_ok w -> s_current s < w_next w -> s_original s < w_next w ->
  forall e, fst (interaction_loop cfg sb tb jira pc fuel s w) <> Throw e.
Proof.
  revert s w. induction fuel as [|fuel IH]; intros s w Hok Hc Ho e; simpl; [discriminate|].
  unfold bind at 1.
  pose proof (loop_step_no_throw cfg sb tb jira pc s w Hok ltac:(lia)) as Hnt.
  destruct (grows_loop_step cfg sb tb jira pc s w Hok) as [Hok1 _].
  destruct (loop_step cfg sb tb jira pc s w) as [[[s'|]|e'|code|] w1] eqn:E;
    simpl in *; try discriminate.
  - destruct (loop_step_cells cfg sb tb jira pc s w s' w1 E Hc Ho) as [Hc1 Ho1].
    apply IH; assumption.
  - exfalso. exact (Hnt e' eq_refl).
Qed.

(** X8: the interaction loop, started on an allocated result, never ends
    by throwing: every failure of the editor, of the AI backend or of the
    GitHub API is caught inside the loop, which ends only by a save, a
    cancellation or waiting for input. *)
Theorem handleUserInteraction_never_throws cfg sb tb jira pc fuel l w :
  heap_ok w -> l < w_next w ->
  forall e, fst (handleUserInteraction cfg sb tb jira pc fuel l w) <> Throw e.
Proof.
  intros Hok Hl e. destruct (Hok l Hl) as [ini Hini].
  unfold handleUserInteraction. rewrite (bind_ret _ _ _ _ _ (start_session_run l w ini Hini Hl)).
  apply interaction_loop_no_throw; simpl; [|lia|lia].
  intros l' Hl'. unfold heap_ok in Hok. simpl in Hl' |- *.
  destruct (decide (l' = S (w_next w))) as [->|H1]; [rewrite lookup_insert_eq; eauto|].
  rewrite lookup_insert_ne by congruence.
  destruct (decide (l' = w_next w)) as [->|H2]; [rewrite lookup_insert_eq; eauto|].
  rewrite lookup_insert_ne by congruence. apply Hok. lia.
Qed.

Lemma handleUserInteraction_never_throws_witness :
  let w := set_heap (world_pr42 "vim" ["2"; "3"; "1"]) {[0 := mkResult "T" "D" "ChatGPT" "gpt-4o"]} 1 in
  heap_ok w /\ 0 < w_next w /\
  forall e, fst (handleUserInteraction cfg_demo "feature" "main" ""
                   (mkPrConfig "acme/app" "ghp_token" None None None) 5 0 w) <> Throw e.
Proof.
  cbv zeta.
  assert (Hok : heap_ok (set_heap (world_pr42 "vim" ["2"; "3"; "1"])
                           {[0 := mkResult "T" "D" "ChatGPT" "gpt-4o"]} 1)).
  { intros l Hl. simpl in Hl. assert (l = 0) as -> by lia. eexists. reflexivity. }
  split; [exact Hok|]. split; [simpl; lia|].
  apply handleUserInteraction_never_throws; [exact Hok | simpl; lia].
Defined.

(** ** Branch display *)



(** ** The editor path of menu option 2 *)

(** X10: when the editor fails, option 2 falls back to the manual prompts
    on an untouched draft: the run is the manual edit, started after the
    editor run and the two fallback messages. *)
Theorem editWithEditor_failure_falls_back s w r rest :
  truthy (w_editorCommand w) = true ->
  w_heap w !! s_current s = Some r ->
  w_editor_out w = None :: rest ->
  exists e,
    editWithEditor s w =
    editManually s
      (set_editor_out
         (set_trace w (ev_log "💡 Falling back to manual input"
                       :: ev_error ("❌ Editor error: " +:+ e)
                       :: ev_editor (editor_buffer (r_title r) (r_description r))
                       :: ev_log "🚀 Opening editor..." :: w_trace w)) rest).
Proof.
  intros Hc Hr Ho.
  unfold editWithEditor, editPullRequestContent, openInEditor, getEditorCommand, executeEditor,
    try_catch, load, log, log_error, emit, throw, bind.
  simpl. rewrite Hc. simpl. rewrite Hr. simpl. rewrite Hc. simpl. rewrite Ho. simpl.
  eexists. reflexivity.
Qed.

Lemma editWithEditor_failure_falls_back_witness :
  let w := set_editor_out
             (set_heap (world_pr42 "vim" ["T2"; ""]) {[0 := mkResult "T" "D" "ChatGPT" "gpt-4o"]} 1)
             [None] in
  truthy (w_editorCommand w) = true /\
  w_heap w !! s_current (mkSession 0 0 0 false) = Some (mkResult "T" "D" "ChatGPT" "gpt-4o") /\
  w_editor_out w = None :: [] /\
  exists e,
    editWithEditor (mkSession 0 0 0 false) w =
    editManually (mkSession 0 0 0 false)
      (set_editor_out
         (set_trace w (ev_log "💡 Falling back to manual input"
                       :: ev_error ("❌ Editor error: " +:+ e)
                       :: ev_editor (editor_buffer "T" "D")
                       :: ev_log "🚀 Opening editor..." :: w_trace w)) []).
Proof.
  cbv zeta. split; [reflexivity|]. split; [reflexivity|]. split; [reflexivity|].
  apply (editWithEditor_failure_falls_back (mkSession 0 0 0 false) _
           (mkResult "T" "D" "ChatGPT" "gpt-4o")); reflexivity.
Defined.

(** ** What a regeneration writes into the live draft *)

(** X11: a successful regeneration writes the first line and the rest of
    the AI reply into the live draft's title and description and keeps the
    draft's own [aiModel] and [model] fields. *)
Theorem regenerateWithInstructions_keeps_model_fields cfg sb tb jira s w r reply arest :
  regeneration_succeeds cfg s w = true ->
  w_heap w !! s_current s = Some r ->
  w_ai_out w = Some reply :: arest ->
  s_current s < w_next w ->
  exists w',
    regenerateWithInstructions cfg sb tb jira s w = (Ret (with_changes s true), w') /\
    w_heap w' !! s_current s
    = Some (mkResult (fst (parse_ai_reply reply)) (snd (parse_ai_reply reply)) (r_aiModel r) (r_model r)).
Proof.
  unfold regeneration_succeeds. intros H Hc Ea Hlt. rewrite Hc in H.
  unfold regenerateWithInstructions, regenerateMergeRequest, openInEditor, generateMergeRequest,
    executeEditor, call_ai, showCurrentResult, set_title, set_description, store, alloc,
    try_catch, load, log, log_error, emit, getEditorCommand, throw, ret, bind.
  simpl. rewrite Hc. simpl.
  destruct (w_heap w !! s_initial s) as [ini|] eqn:Hi; simpl; [|discriminate].
  unfold supported_model in H.
  destruct (truthy (w_editorCommand w)) eqn:He; simpl; [|discriminate].
  destruct (w_editor_out w) as [|[buf|] erest] eqn:Eo; simpl; try discriminate.
  destruct (String.eqb (to_lower (r_aiModel ini)) "chatgpt" || String.eqb (to_lower (r_aiModel ini)) "openai"
            || String.eqb (to_lower (r_aiModel ini)) "gpt") eqn:Hm; simpl; [|discriminate].
  destruct (truthy (cfg_openaiToken cfg)) eqn:Ht; simpl; [|discriminate].
  rewrite Ea. simpl.
  destruct (parse_ai_reply reply) as [ti de]. simpl.
  rewrite lookup_insert_eq. simpl.
  rewrite lookup_insert_ne by lia. rewrite Hc.
  repeat progress (simpl; rewrite ?lookup_insert_eq).
  eexists. split; [reflexivity|]. simpl. rewrite ?lookup_insert_eq. reflexivity.
Qed.

Lemma regenerateWithInstructions_keeps_model_fields_witness :
  let s := mkSession 0 1 2 true in
  let w := set_heap (world_pr42 "vim" [])
             {[0 := mkResult "T0" "D0" "ChatGPT" "gpt-4o"; 1 := mkResult "T1" "D1" "ChatGPT" "gpt-4o";
               2 := mkResult "T0" "D0" "ChatGPT" "gpt-4o"]} 3 in
  regeneration_succeeds cfg_demo s w = true /\
  w_heap w !! s_current s = Some (mkResult "T1" "D1" "ChatGPT" "gpt-4o") /\
  w_ai_out w = Some ("New" +:+ nl_s +:+ "New body") :: [Some ("Fresh" +:+ nl_s +:+ "Fresh body")] /\
  s_current s < w_next w /\
  exists w',
    regenerateWithInstructions cfg_demo "feature" "main" "" s w = (Ret (with_changes s true), w') /\
    w_heap w' !! s_current s
    = Some (mkResult (fst (parse_ai_reply ("New" +:+ nl_s +:+ "New body")))
              (snd (parse_ai_reply ("New" +:+ nl_s +:+ "New body"))) "ChatGPT" "gpt-4o").
Proof.
  cbv zeta. split; [reflexivity|]. split; [reflexivity|]. split; [reflexivity|].
  split; [simpl; lia|].
  apply (regenerateWithInstructions_keeps_model_fields cfg_demo "feature" "main" ""
           (mkSession 0 1 2 true) _ (mkResult "T1" "D1" "ChatGPT" "gpt-4o")
           ("New" +:+ nl_s +:+ "New body") [Some ("Fresh" +:+ nl_s +:+ "Fresh body")]);
    [reflexivity | reflexivity | reflexivity | simpl; lia].
Defined.

(** ** Clearing the editor buffer *)

Lemma split_on_newlines n : split_on nl (repeat_str n nl_s) = repeat EmptyString (S n).
Proof.
  induction n as [|n IH]; [reflexivity|]. simpl repeat_str. unfold nl_s at 1.
  rewrite str_app_cons, str_app_nil_l. simpl. rewrite IH. reflexivity.
Qed.

Lemma find_separator_blank i n : find_separator i (repeat EmptyString n) = None.
Proof. revert i. induction n as [|n IH]; intros i; [reflexivity|]. simpl. apply IH. Qed.

Lemma trim_join_blank n : trim (join nl_s (repeat EmptyString n)) = EmptyString.
Proof.
  induction n as [|[|n] IH]; [reflexivity | reflexivity|].
  change (repeat EmptyString (S (S n))) with (EmptyString :: EmptyString :: repeat EmptyString n).
  rewrite join_nil_head, trim_nl_head. exact IH.
Qed.

(** X12: a buffer saved empty, or with nothing but line breaks, keeps the
    old title and description as they were (not even trimmed). *)
Theorem editPullRequestContent_cleared_buffer_keeps_content title description w n rest :
  truthy (w_editorCommand w) = true ->
  w_editor_out w = Some (repeat_str n nl_s) :: rest ->
  fst (editPullRequestContent title description w) = Ret (title, description).
Proof.
  intros Hc Ho. rewrite (editPullRequestContent_run _ _ _ _ _ Hc Ho), split_on_newlines.
  rewrite find_separator_blank. simpl tl. rewrite trim_join_blank. reflexivity.
Qed.

Lemma editPullRequestContent_cleared_buffer_keeps_content_witness :
  truthy (w_editorCommand (world_pr42 "vim" [])) = true /\
  fst (editPullRequestContent " Old title" "Old body"
         (set_editor_out (world_pr42 "vim" []) [Some (repeat_str 2 nl_s)]))
  = Ret (" Old title", "Old body").
Proof.
  split; [reflexivity|].
  apply (editPullRequestContent_cleared_buffer_keeps_content _ _ _ 2 []); reflexivity.
Defined.

(** ** The editor command line *)



Lemma no_ws_app a b : no_ws (a +:+ b) = no_ws a && no_ws b.
Proof.
  induction a as [|d a IH]; [reflexivity|].
  rewrite str_app_cons. simpl. rewrite IH. by rewrite andb_assoc.
Qed.




Section Replace.

Variables (c0 : ascii) (p0 r : string).

(** The pattern; its first character [c0] is ["{"] for both placeholders. *)
Let P := String c0 p0.


Lemma replace_all_nil : replace_all P r EmptyString = EmptyString.
Proof. reflexivity. Qed.

Lemma replace_all_no_match c s :
  starts_with P (String c s) = false ->
  replace_all P r (String c s) = String c (replace_all P r s).
Proof.
  intros H. unfold replace_all. simpl String.length. cbn [replace_go]. rewrite H. reflexivity.
Qed.


Lemma replace_all_no_lead s :
  has_char c0 s = false -> replace_all P r s = s.
Proof.
  induction s as [|c s IH]; [reflexivity|]. simpl. intros H.
  apply orb_false_iff in H as [Hc Hs].
  rewrite replace_all_no_match, IH by (done || (simpl; rewrite Ascii.eqb_sym, Hc; reflexivity)).
  reflexivity.
Qed.


Lemma contains_no_lead s : has_char c0 s = false -> contains P s = false.
Proof.
  induction s as [|c s IH]; [reflexivity|]. simpl. intros H.
  apply orb_false_iff in H as [Hc Hs]. rewrite Ascii.eqb_sym, Hc, IH; done.
Qed.



End Replace.

Lemma split_ws_nonnil s : split_ws s <> [].
Proof.
  induction s as [|c s IH]; simpl; [done|].
  destruct (is_ws c); [destruct (starts_ws s); done|]. destruct (split_ws s); done.
Qed.

(** [s.split(/\s+/).join(" ")] is [s] for a single-spaced [s]. *)
Lemma join_split_ws s : single_spaced s = true -> join " " (split_ws s) = s.
Proof.
  induction s as [|c s IH]; [reflexivity|]. simpl. intros H.
  apply andb_true_iff in H as [Hc Hs].
  destruct (is_ws c).
  - apply andb_true_iff in Hc as [Hsp Hst]. apply Ascii.eqb_eq in Hsp as ->.
    apply negb_true_iff in Hst. rewrite Hst.
    destruct (split_ws s) as [|y ys] eqn:E; [by destruct (split_ws_nonnil s)|].
    rewrite join_nil_head, IH by done. reflexivity.
  - destruct (split_ws s) as [|y ys] eqn:E; [by destruct (split_ws_nonnil s)|].
    destruct y as [|d y].
    + destruct ys as [|z zs].
      * simpl in IH. rewrite <- IH by done. reflexivity.
      * rewrite <- IH by done. reflexivity.
    + rewrite join_cons_head, IH by done. reflexivity.
Qed.

Lemma join_snoc sep xs x : xs <> [] -> join sep (xs ++ [x]) = join sep xs +:+ sep +:+ x.
Proof.
  induction xs as [|y [|y' ys] IH]; intros Hne; [done|reflexivity|].
  transitivity (y +:+ sep +:+ join sep ((y' :: ys) ++ [x])); [reflexivity|].
  rewrite IH by done.
  transitivity ((y +:+ sep +:+ join sep (y' :: ys)) +:+ sep +:+ x); [|reflexivity].
  rewrite !str_app_assoc. reflexivity.
Qed.


Lemma single_spaced_no_ws_prefix x c :
  no_ws x = true -> single_spaced (x +:+ c) = single_spaced c.
Proof.
  induction x as [|d x IH]; [reflexivity|]. simpl. intros H.
  apply andb_true_iff in H as [Hd Hx]. apply negb_true_iff in Hd. rewrite Hd. simpl. by apply IH.
Qed.


Lemma single_spaced_app_no_ws s q :
  single_spaced s = true -> no_ws q = true -> single_spaced (s +:+ q) = true.
Proof.
  intros Hs Hq. induction s as [|c s IH].
  - rewrite str_app_nil_l. rewrite <- (str_app_nil_r q), single_spaced_no_ws_prefix by done.
    reflexivity.
  - rewrite str_app_cons. simpl in Hs |- *. apply andb_true_iff in Hs as [Hc Hs].
    rewrite IH by done. rewrite andb_true_r.
    destruct (is_ws c); [|done]. apply andb_true_iff in Hc as [-> Hst]. simpl.
    destruct s as [|d s].
    + destruct q as [|e q]; [done|]. simpl in Hq |- *.
      apply andb_true_iff in Hq as [He _]. exact He.
    + exact Hst.
Qed.

Lemma single_spaced_prefix s t : single_spaced (s +:+ t) = true -> single_spaced s = true.
Proof.
  induction s as [|c s IH]; [done|]. rewrite str_app_cons. simpl. intros H.
  apply andb_true_iff in H as [Hc Hs]. rewrite IH by done. rewrite andb_true_r.
  destruct (is_ws c); [|done]. apply andb_true_iff in Hc as [-> Hst].
  destruct s; [done|]. exact Hst.
Qed.







(** X15: an editor command without placeholders whose words are separated by
    single spaces is run as it is, with the temporary file appended as its
    last argument; the [line] argument plays no part. *)
Theorem executeEditor_command_plain cmd line path :
  has_char "{" cmd = false -> single_spaced cmd = true ->
  executeEditor_command cmd line path = cmd +:+ " " +:+ path.
Proof.
  intros Hc Hs. unfold executeEditor_command.
  rewrite (contains_no_lead "{" "file}" cmd) by done. cbv zeta. cbn iota.
  rewrite (replace_all_no_lead "{" "line}" line cmd), (replace_all_no_lead "{" "file}" path cmd)
    by done.
  rewrite join_snoc by apply split_ws_nonnil. by rewrite join_split_ws.
Qed.

Lemma executeEditor_command_plain_witness :
  has_char "{" "code -w" = false /\ single_spaced "code -w" = true /\
  executeEditor_command "code -w" "1" "/tmp/gen-mr-edit-1.md" = "code -w" +:+ " " +:+ "/tmp/gen-mr-edit-1.md".
Proof.
  split; [reflexivity|]. split; [reflexivity|].
  apply executeEditor_command_plain; reflexivity.
Defined.


